(** * surfer / modem / s33: status acquisition for the ARRIS S33

    A shallow embedding of [modem/s33/s33.go]: the table parser
    ([parseDownstreamTable], [parseUpstreamTable], [parseStatus]), the HNAP
    login arithmetic ([encrypt], [privateKey], [encryptedPass], [hnapAuth]),
    the login exchange ([auth]), the probe ([isS33], [probe]) and [Status].

    Go strings are byte sequences and are modelled by [string]; [[]byte] is
    [list ascii]; Go maps are [gmap]; [float64] is the IEEE 754 binary64
    instance of [spec_float]. *)

From Stdlib Require Import ZArith Ascii String List Bool Lia.
From Stdlib Require Import DecimalString DecimalZ.
From Stdlib Require Import Floats.SpecFloat.
From stdpp Require Import base option list strings gmap.

Local Open Scope Z_scope.

(** ** Bytes *)

Definition byte := ascii.
Definition bytes := list byte.

Definition byteZ (c : byte) : Z := Z.of_N (N_of_ascii c).
Definition Zbyte (z : Z) : byte := ascii_of_N (Z.to_N (z mod 256)).

(** The double quote. *)
Definition dquote : byte := "034"%char.

(** [[]byte(s)] and [string(b)]. *)
Definition bytesOf (s : string) : bytes := list_ascii_of_string s.
Definition stringOf (b : bytes) : string := string_of_list_ascii b.

(** ** Package [strings] / [bytes] of the Go library *)

Module strings.

(** [strings.HasPrefix]. *)
Fixpoint HasPrefix (s p : string) : bool :=
  match p, s with
  | EmptyString, _ => true
  | String _ _, EmptyString => false
  | String a p', String b s' => if Ascii.eqb a b then HasPrefix s' p' else false
  end.

(** [strings.Contains(s, substr)]: some suffix of [s] starts with
    [substr]. *)
Fixpoint Contains (s substr : string) : bool :=
  HasPrefix s substr ||
  match s with
  | EmptyString => false
  | String _ s' => Contains s' substr
  end.

(** The loop of [strings.Split] for a non-empty separator: the leftmost
    occurrence of [sep] ends the current field, the scan resumes after it.
    [skip] counts the bytes of a separator still to be stepped over; the
    head of the result is the field being read. *)
Fixpoint splitFrom (sep : string) (skip : nat) (s : string) : list string :=
  match s with
  | EmptyString => [EmptyString]
  | String c s' =>
      match skip with
      | S k => splitFrom sep k s'
      | O =>
          if HasPrefix s sep
          then EmptyString :: splitFrom sep (pred (String.length sep)) s'
          else match splitFrom sep O s' with
               | f :: fs => String c f :: fs
               | [] => [String c EmptyString]
               end
      end
  end.

(** [strings.Split(s, sep)] for a non-empty [sep], the only use the package
    makes of it (["|+|"] and ["^"]). *)
Definition Split (s sep : string) : list string := splitFrom sep O s.

End strings.

(** [bytes.Contains]. *)
Definition bytes_Contains (b sub : bytes) : bool :=
  strings.Contains (stringOf b) (stringOf sub).

(** ** Package [strconv]: [ParseFloat(s, 64)]

    The accepted language is the one of [strconv]'s [special] and
    [readFloat]; the value is the exact decimal (or hexadecimal) value
    rounded once to the nearest binary64, ties to even, as the package
    documents. *)

Module strconv.

Definition float64 := spec_float.
Definition prec := 53%Z.
Definition emax := 1024%Z.

Inductive NumError := ErrSyntax | ErrRange.

Definition lower (c : byte) : byte := Zbyte (Z.lor (byteZ c) 32).

Definition isDigit (c : byte) : bool :=
  (48 <=? byteZ c) && (byteZ c <=? 57).
Definition isHexLetter (c : byte) : bool :=
  (97 <=? byteZ (lower c)) && (byteZ (lower c) <=? 102).

(** [commonPrefixLenIgnoreCase(s, prefix)], [prefix] in lower case. *)
Fixpoint commonPrefixLenIgnoreCase (s prefix : string) : nat :=
  match s, prefix with
  | String c s', String p prefix' =>
      let c' := if (65 <=? byteZ c) && (byteZ c <=? 90)
                then Zbyte (byteZ c + 32) else c in
      if Ascii.eqb c' p then S (commonPrefixLenIgnoreCase s' prefix') else O
  | _, _ => O
  end.

(** [special]: the value and the number of bytes consumed. *)
Definition inf_prefix (sign : bool) (nsign : nat) (s : string)
  : option (float64 * nat) :=
  let n := commonPrefixLenIgnoreCase s "infinity" in
  let n := if (3 <? n)%nat && (n <? 8)%nat then 3%nat else n in
  if (n =? 3)%nat || (n =? 8)%nat
  then Some (S754_infinity sign, (nsign + n)%nat) else None.

Definition special (s : string) : option (float64 * nat) :=
  match s with
  | EmptyString => None
  | String c s' =>
      if Ascii.eqb c "+" then inf_prefix false 1 s'
      else if Ascii.eqb c "-" then inf_prefix true 1 s'
      else if Ascii.eqb c "i" || Ascii.eqb c "I" then inf_prefix false 0 s
      else if Ascii.eqb c "n" || Ascii.eqb c "N" then
        if (commonPrefixLenIgnoreCase s "nan" =? 3)%nat
        then Some (S754_nan, 3%nat) else None
      else None
  end.

(** What [readFloat] has gathered while scanning the mantissa: the
    significant digits read as an integer ([mant], [nd] of them), the
    position of the point ([dp]), and the flags. *)
Record mantissa := {
  mant : Z; nd : Z; dp : Z;
  sawdot : bool; sawdigits : bool; underscores : bool }.

Definition mant0 : mantissa :=
  {| mant := 0; nd := 0; dp := 0;
     sawdot := false; sawdigits := false; underscores := false |}.

(** The mantissa loop: returns the state and the unread rest. *)
Fixpoint readMantissa (base : Z) (st : mantissa) (s : string)
  : mantissa * string :=
  match s with
  | EmptyString => (st, s)
  | String c s' =>
      if Ascii.eqb c "_" then
        readMantissa base
          {| mant := mant st; nd := nd st; dp := dp st; sawdot := sawdot st;
             sawdigits := sawdigits st; underscores := true |} s'
      else if Ascii.eqb c "." then
        if sawdot st then (st, s)
        else readMantissa base
          {| mant := mant st; nd := nd st; dp := nd st; sawdot := true;
             sawdigits := sawdigits st; underscores := underscores st |} s'
      else if isDigit c then
        if Ascii.eqb c "0" && (nd st =? 0) then
          readMantissa base
            {| mant := mant st; nd := nd st; dp := dp st - 1;
               sawdot := sawdot st; sawdigits := true;
               underscores := underscores st |} s'
        else
          readMantissa base
            {| mant := mant st * base + (byteZ c - 48); nd := nd st + 1;
               dp := dp st; sawdot := sawdot st; sawdigits := true;
               underscores := underscores st |} s'
      else if (base =? 16) && isHexLetter c then
        readMantissa base
          {| mant := mant st * 16 + (byteZ (lower c) - 97 + 10);
             nd := nd st + 1; dp := dp st; sawdot := sawdot st;
             sawdigits := true; underscores := underscores st |} s'
      else (st, s)
  end.

(** The digits of the exponent: the value (clamped as the source does)
    with the underscore flag and the unread rest. *)
Fixpoint readExpDigits (e : Z) (us : bool) (s : string) : Z * bool * string :=
  match s with
  | EmptyString => (e, us, s)
  | String c s' =>
      if Ascii.eqb c "_" then readExpDigits e true s'
      else if isDigit c then
        readExpDigits (if e <? 10000 then e * 10 + (byteZ c - 48) else e) us s'
      else (e, us, s)
  end.

(** [underscoreOK]: an underscore only between digits (or after a base
    prefix). *)
Inductive sawClass := sawStart | sawDigit | sawUnderscore | sawOther.

Fixpoint underscoreLoop (hex : bool) (saw : sawClass) (s : string) : bool :=
  match s with
  | EmptyString => match saw with sawUnderscore => false | _ => true end
  | String c s' =>
      if isDigit c || (hex && isHexLetter c) then underscoreLoop hex sawDigit s'
      else if Ascii.eqb c "_" then
        match saw with
        | sawDigit => underscoreLoop hex sawUnderscore s'
        | _ => false
        end
      else match saw with
           | sawUnderscore => false
           | _ => underscoreLoop hex sawOther s'
           end
  end.

Definition dropSign (s : string) : string :=
  match s with
  | String c s' => if Ascii.eqb c "-" || Ascii.eqb c "+" then s' else s
  | _ => s
  end.

Definition underscoreOK (s : string) : bool :=
  match dropSign s with
  | String c0 (String c1 rest) =>
      if Ascii.eqb c0 "0" &&
         (Ascii.eqb (lower c1) "b" || Ascii.eqb (lower c1) "o"
          || Ascii.eqb (lower c1) "x")
      then underscoreLoop (Ascii.eqb (lower c1) "x") sawDigit rest
      else underscoreLoop false sawStart (dropSign s)
  | s' => underscoreLoop false sawStart s'
  end.

(** The number [readFloat] reads: sign, base, the integer of the
    significant digits and the exponent of the base (10, or 2 for a
    hexadecimal mantissa). *)
Record number := { neg : bool; hex : bool; digits : Z; exp : Z }.

Definition readFloat (s : string) : option number :=
  match s with
  | EmptyString => None
  | String c0 s0 =>
      let '(sign, s1) :=
        if Ascii.eqb c0 "+" then (false, s0)
        else if Ascii.eqb c0 "-" then (true, s0)
        else (false, s) in
      let '(ishex, s2) :=
        match s1 with
        | String z (String x (String y rest)) =>
            if Ascii.eqb z "0" && Ascii.eqb (lower x) "x"
            then (true, String y rest) else (false, s1)
        | _ => (false, s1)
        end in
      let '(m, s3) := readMantissa (if ishex then 16 else 10) mant0 s2 in
      if negb (sawdigits m) then None else
      let dp0 := if sawdot m then dp m else nd m in
      let dp1 := if ishex then dp0 * 4 else dp0 in
      let nd1 := if ishex then nd m * 4 else nd m in
      let finish (dp2 : Z) (us : bool) (rest : string) :=
        match rest with
        | EmptyString =>
            if us && negb (underscoreOK s) then None
            else Some {| neg := sign; hex := ishex; digits := mant m;
                         exp := if mant m =? 0 then 0 else dp2 - nd1 |}
        | _ => None
        end in
      match s3 with
      | String e s4 =>
          if Ascii.eqb (lower e) (if ishex then "p" else "e")%char then
            let '(esign, s5) :=
              match s4 with
              | String g s4' =>
                  if Ascii.eqb g "+" then (1, s4')
                  else if Ascii.eqb g "-" then (-1, s4')
                  else (1, s4)
              | _ => (1, s4)
              end in
            match s5 with
            | String d _ =>
                if isDigit d then
                  let '(ev, us, rest) := readExpDigits 0 (underscores m) s5 in
                  finish (dp1 + ev * esign) us rest
                else None
            | EmptyString => None
            end
          else None
      | EmptyString => if ishex then None else finish dp1 (underscores m) s3
      end
  end.

(** Rounding: [n / d * 2^e] ([n], [d] positive) to the nearest binary64,
    ties to even.  The quotient is taken with at least 64 significant bits
    and a sticky bit for the remainder, so that the single rounding of
    [binary_round] decides as on the exact value. *)
Definition roundRatio (sign : bool) (n d e : Z) : float64 :=
  match n with
  | Zpos _ =>
      let s := Z.max 0 (66 + Z.log2 d - Z.log2 n) in
      let q := (n * 2 ^ s) / d in
      let r := (n * 2 ^ s) mod d in
      match 2 * q + (if r =? 0 then 0 else 1) with
      | Zpos m => binary_round prec emax sign m (e - s - 1)
      | _ => S754_zero sign
      end
  | _ => S754_zero sign
  end.

Definition value (x : number) : float64 :=
  if hex x then roundRatio (neg x) (digits x) 1 (exp x)
  else if 0 <=? exp x then roundRatio (neg x) (digits x * 10 ^ exp x) 1 0
  else roundRatio (neg x) (digits x) (10 ^ (- exp x)) 0.

(** [ParseFloat(s, 64)]: the value with the error, [None] for [nil].  A
    malformed string gives 0 with [ErrSyntax]; a value beyond the largest
    binary64 gives an infinity with [ErrRange]. *)
Definition ParseFloat (s : string) : float64 * option NumError :=
  match special s with
  | Some (v, n) =>
      if (n =? String.length s)%nat then (v, None)
      else (S754_zero false, Some ErrSyntax)
  | None =>
      match readFloat s with
      | None => (S754_zero false, Some ErrSyntax)
      | Some x =>
          match value x with
          | S754_infinity sg => (S754_infinity sg, Some ErrRange)
          | v => (v, None)
          end
      end
  end.

End strconv.

(** ** Package [crypto/md5] (RFC 1321) *)

Module md5.

Definition BlockSize : nat := 64.
Definition Size : nat := 16.

Definition mask32 : Z := 0xFFFFFFFF.
Definition add32 (x y : Z) : Z := Z.land (x + y) mask32.
Definition not32 (x : Z) : Z := Z.lxor x mask32.
Definition rotl32 (x n : Z) : Z :=
  Z.lor (Z.land (Z.shiftl x n) mask32) (Z.shiftr x (32 - n)).

(** [floor(2^32 * abs(sin(i + 1)))]. *)
Definition K : list Z :=
  [0xd76aa478; 0xe8c7b756; 0x242070db; 0xc1bdceee; 0xf57c0faf; 0x4787c62a;
   0xa8304613; 0xfd469501; 0x698098d8; 0x8b44f7af; 0xffff5bb1; 0x895cd7be;
   0x6b901122; 0xfd987193; 0xa679438e; 0x49b40821; 0xf61e2562; 0xc040b340;
   0x265e5a51; 0xe9b6c7aa; 0xd62f105d; 0x02441453; 0xd8a1e681; 0xe7d3fbc8;
   0x21e1cde6; 0xc33707d6; 0xf4d50d87; 0x455a14ed; 0xa9e3e905; 0xfcefa3f8;
   0x676f02d9; 0x8d2a4c8a; 0xfffa3942; 0x8771f681; 0x6d9d6122; 0xfde5380c;
   0xa4beea44; 0x4bdecfa9; 0xf6bb4b60; 0xbebfbc70; 0x289b7ec6; 0xeaa127fa;
   0xd4ef3085; 0x04881d05; 0xd9d4d039; 0xe6db99e5; 0x1fa27cf8; 0xc4ac5665;
   0xf4292244; 0x432aff97; 0xab9423a7; 0xfc93a039; 0x655b59c3; 0x8f0ccc92;
   0xffeff47d; 0x85845dd1; 0x6fa87e4f; 0xfe2ce6e0; 0xa3014314; 0x4e0811a1;
   0xf7537e82; 0xbd3af235; 0x2ad7d2bb; 0xeb86d391].

(** The rotation of step [i]. *)
Definition shift (i : nat) : Z :=
  nth (4 * (i / 16) + i mod 4)%nat
    [7; 12; 17; 22; 5; 9; 14; 20; 4; 11; 16; 23; 6; 10; 15; 21] 0.

Record digest := { sA : Z; sB : Z; sC : Z; sD : Z }.

Definition init : digest :=
  {| sA := 0x67452301; sB := 0xefcdab89; sC := 0x98badcfe; sD := 0x10325476 |}.

(** A 32-bit word from four bytes, least significant first, and back. *)
Definition word (b : bytes) : Z :=
  fold_right (fun c acc => byteZ c + 256 * acc) 0 (take 4 b).
Definition unword (w : Z) : bytes :=
  [Zbyte w; Zbyte (Z.shiftr w 8); Zbyte (Z.shiftr w 16); Zbyte (Z.shiftr w 24)].

(** One step of the block function on the sixteen words [M]. *)
Definition step (M : list Z) (st : digest) (i : nat) : digest :=
  let '(a, b, c, d) := (sA st, sB st, sC st, sD st) in
  let '(f, g) :=
    match (i / 16)%nat with
    | 0%nat => (Z.lor (Z.land b c) (Z.land (not32 b) d), i)
    | 1%nat => (Z.lor (Z.land d b) (Z.land (not32 d) c), ((5 * i + 1) mod 16)%nat)
    | 2%nat => (Z.lxor (Z.lxor b c) d, ((3 * i + 5) mod 16)%nat)
    | _ => (Z.lxor c (Z.lor b (not32 d)), ((7 * i) mod 16)%nat)
    end in
  let f' := add32 (add32 (add32 f a) (nth i K 0)) (nth g M 0) in
  {| sA := d; sB := add32 b (rotl32 f' (shift i)); sC := b; sD := c |}.

Definition block (st : digest) (blk : bytes) : digest :=
  let M := map (fun j => word (drop (4 * j) blk)) (seq 0 16) in
  let st' := fold_left (step M) (seq 0 64) st in
  {| sA := add32 (sA st) (sA st'); sB := add32 (sB st) (sB st');
     sC := add32 (sC st) (sC st'); sD := add32 (sD st) (sD st') |}.

Fixpoint blocks (n : nat) (st : digest) (data : bytes) : digest :=
  match n with
  | O => st
  | S n' => blocks n' (block st (take 64 data)) (drop 64 data)
  end.

(** The padding: a one bit, zeros up to 56 modulo 64, and the length in
    bits as a 64-bit little-endian integer. *)
Definition pad (len : nat) : bytes :=
  let bits := (8 * Z.of_nat len) mod 2 ^ 64 in
  Zbyte 128 :: repeat (Zbyte 0) (Z.to_nat ((55 - Z.of_nat len) mod 64))
  ++ unword bits ++ unword (Z.shiftr bits 32).

(** The digest of everything written to a fresh [md5.New()]. *)
Definition Sum (data : bytes) : bytes :=
  let padded := data ++ pad (length data) in
  let st := blocks (length padded / 64) init padded in
  unword (sA st) ++ unword (sB st) ++ unword (sC st) ++ unword (sD st).

End md5.

(** ** Package [crypto/hmac], over MD5 *)

Module hmac.

Definition xorWith (k : Z) (b : bytes) : bytes :=
  map (fun c => Zbyte (Z.lxor (byteZ c) k)) b.

(** The object [hmac.New(md5.New, key)] builds: the outer pad and
    everything written to the inner hash so far. *)
Record t := { opad : bytes; inner : bytes }.

Definition New (key : bytes) : t :=
  let key' := if (md5.BlockSize <? length key)%nat then md5.Sum key else key in
  let padded := key' ++ repeat (Zbyte 0) (md5.BlockSize - length key') in
  {| opad := xorWith 0x5c padded; inner := xorWith 0x36 padded |}.

Definition Write (h : t) (p : bytes) : t :=
  {| opad := opad h; inner := inner h ++ p |}.

(** [h.Sum(nil)]. *)
Definition Sum (h : t) : bytes :=
  md5.Sum (opad h ++ md5.Sum (inner h)).

End hmac.

(** HMAC-MD5 as RFC 2104 states it:
    [H((K' xor opad) || H((K' xor ipad) || text))], with [K'] the key (its
    digest when longer than a block) filled with zeros to the block size. *)
Definition HMAC_MD5 (key text : bytes) : bytes :=
  let k0 := if (64 <? length key)%nat then md5.Sum key else key in
  let k' := k0 ++ repeat (Zbyte 0) (64 - length k0) in
  md5.Sum (hmac.xorWith 0x5c k' ++ md5.Sum (hmac.xorWith 0x36 k' ++ text)).

(** ** Package [fmt]: the verbs the package uses *)

Module fmt.

Definition hexDigit (upper : bool) (n : Z) : byte :=
  if n <? 10 then Zbyte (48 + n)
  else Zbyte ((if upper then 65 else 97) + (n - 10)).

(** [Sprintf("%X", b)] for a byte slice: two upper-case hexadecimal digits
    a byte. *)
Fixpoint hexX (b : bytes) : string :=
  match b with
  | [] => EmptyString
  | c :: b' =>
      String (hexDigit true (byteZ c / 16))
        (String (hexDigit true (byteZ c mod 16)) (hexX b'))
  end.

(** [Sprintf("%d", n)]: the decimal digits, after a minus sign for a
    negative integer. *)
Definition itoa (n : Z) : string := NilZero.string_of_int (Z.to_int n).

End fmt.

(** ** Errors and results *)

Inductive error :=
| ErrNoChannels                 (* "No channels returned" *)
| ErrExpectedMore (got : nat)   (* "Expected more than channels, got %d" *)
| ErrLoginFailed                (* "Login Failed" *)
| ErrTransport (msg : string)   (* an error of the HTTP client *)
| ErrSyntaxJSON                 (* a *json.SyntaxError *)
| ErrDecode (msg : string)      (* another error of encoding/json *)
| ErrReadFile (msg : string).   (* an error of ioutil.ReadFile *)

(** A Go result pair [(v, err)]: either [(v, nil)] or [(nil, err)]. *)
Inductive result (A : Type) :=
| Ok (v : A)
| Err (e : error).
Arguments Ok {A} v.
Arguments Err {A} e.

Definition isErr {A} (r : result A) : bool :=
  match r with Ok _ => false | Err _ => true end.

(** The errors the table parsers raise for a table with too few rows. *)
Definition isStructural (e : error) : bool :=
  match e with
  | ErrNoChannels | ErrExpectedMore _ => true
  | _ => false
  end.

(** ** Package [encoding/json]: the validity scan of [Unmarshal]

    [json.Unmarshal] first runs [checkValid] over the whole input, a byte at
    a time, with a stack of the open objects and arrays; only a valid input
    is decoded. *)

Module json.

Inductive parseState := parseObjectKey | parseObjectValue | parseArrayValue.

Inductive scanState :=
| stateBeginValue | stateBeginValueOrEmpty
| stateBeginStringOrEmpty | stateBeginString
| stateInString | stateInStringEsc
| stateInStringEscU (left : nat)   (* hexadecimal digits still to come *)
| stateNeg | state0 | state1 | stateDot | stateDot0
| stateE | stateESign | stateE0
| stateLiteral (rest : string)     (* what is left of true, false, null *)
| stateEndValue | stateEndTop.

Definition maxNestingDepth : Z := 10000.

Definition isSpace (c : byte) : bool :=
  Ascii.eqb c " " || Ascii.eqb c "009" || Ascii.eqb c "013" || Ascii.eqb c "010".

Definition isHex (c : byte) : bool :=
  strconv.isDigit c
  || ((97 <=? byteZ c) && (byteZ c <=? 102))
  || ((65 <=? byteZ c) && (byteZ c <=? 70)).

Definition scanner := (scanState * list parseState)%type.

Definition push (ps : parseState) (next : scanState) (stk : list parseState)
  : option scanner :=
  if Z.of_nat (length (ps :: stk)) <=? maxNestingDepth
  then Some (next, ps :: stk) else None.

Definition pop (stk : list parseState) : scanner :=
  match stk with
  | [] => (stateEndTop, [])
  | _ => (stateEndValue, stk)
  end.

Definition endTop (c : byte) : option scanner :=
  if isSpace c then Some (stateEndTop, []) else None.

Definition endValue (stk : list parseState) (c : byte) : option scanner :=
  match stk with
  | [] => endTop c
  | ps :: rest =>
      if isSpace c then Some (stateEndValue, stk)
      else match ps with
           | parseObjectKey =>
               if Ascii.eqb c ":"
               then Some (stateBeginValue, parseObjectValue :: rest) else None
           | parseObjectValue =>
               if Ascii.eqb c ","
               then Some (stateBeginString, parseObjectKey :: rest)
               else if Ascii.eqb c "}" then Some (pop rest) else None
           | parseArrayValue =>
               if Ascii.eqb c "," then Some (stateBeginValue, stk)
               else if Ascii.eqb c "]" then Some (pop rest) else None
           end
  end.

Definition beginString (stk : list parseState) (c : byte) : option scanner :=
  if isSpace c then Some (stateBeginString, stk)
  else if Ascii.eqb c dquote then Some (stateInString, stk) else None.

Definition beginValue (stk : list parseState) (c : byte) : option scanner :=
  if isSpace c then Some (stateBeginValue, stk)
  else if Ascii.eqb c "{" then push parseObjectKey stateBeginStringOrEmpty stk
  else if Ascii.eqb c "[" then push parseArrayValue stateBeginValueOrEmpty stk
  else if Ascii.eqb c dquote then Some (stateInString, stk)
  else if Ascii.eqb c "-" then Some (stateNeg, stk)
  else if Ascii.eqb c "0" then Some (state0, stk)
  else if Ascii.eqb c "t" then Some (stateLiteral "rue", stk)
  else if Ascii.eqb c "f" then Some (stateLiteral "alse", stk)
  else if Ascii.eqb c "n" then Some (stateLiteral "ull", stk)
  else if strconv.isDigit c then Some (state1, stk)
  else None.

Definition isE (c : byte) : bool := Ascii.eqb c "e" || Ascii.eqb c "E".

(** One byte of input: the next scanner, or [None] for a syntax error. *)
Definition step (sc : scanner) (c : byte) : option scanner :=
  let '(st, stk) := sc in
  match st with
  | stateBeginValue => beginValue stk c
  | stateBeginValueOrEmpty =>
      if isSpace c then Some (stateBeginValueOrEmpty, stk)
      else if Ascii.eqb c "]" then endValue stk c
      else beginValue stk c
  | stateBeginStringOrEmpty =>
      if isSpace c then Some (stateBeginStringOrEmpty, stk)
      else if Ascii.eqb c "}" then
        match stk with
        | _ :: rest => endValue (parseObjectValue :: rest) c
        | [] => None
        end
      else beginString stk c
  | stateBeginString => beginString stk c
  | stateInString =>
      if Ascii.eqb c dquote then Some (stateEndValue, stk)
      else if Ascii.eqb c "\" then Some (stateInStringEsc, stk)
      else if byteZ c <? 32 then None
      else Some (stateInString, stk)
  | stateInStringEsc =>
      if Ascii.eqb c "b" || Ascii.eqb c "f" || Ascii.eqb c "n"
         || Ascii.eqb c "r" || Ascii.eqb c "t" || Ascii.eqb c "\"
         || Ascii.eqb c "/" || Ascii.eqb c dquote
      then Some (stateInString, stk)
      else if Ascii.eqb c "u" then Some (stateInStringEscU 4, stk)
      else None
  | stateInStringEscU n =>
      if isHex c then
        match n with
        | S (S k) => Some (stateInStringEscU (S k), stk)
        | _ => Some (stateInString, stk)
        end
      else None
  | stateNeg =>
      if Ascii.eqb c "0" then Some (state0, stk)
      else if strconv.isDigit c then Some (state1, stk)
      else None
  | state1 =>
      if strconv.isDigit c then Some (state1, stk)
      else if Ascii.eqb c "." then Some (stateDot, stk)
      else if isE c then Some (stateE, stk)
      else endValue stk c
  | state0 =>
      if Ascii.eqb c "." then Some (stateDot, stk)
      else if isE c then Some (stateE, stk)
      else endValue stk c
  | stateDot =>
      if strconv.isDigit c then Some (stateDot0, stk) else None
  | stateDot0 =>
      if strconv.isDigit c then Some (stateDot0, stk)
      else if isE c then Some (stateE, stk)
      else endValue stk c
  | stateE =>
      if Ascii.eqb c "+" || Ascii.eqb c "-" then Some (stateESign, stk)
      else if strconv.isDigit c then Some (stateE0, stk)
      else None
  | stateESign =>
      if strconv.isDigit c then Some (stateE0, stk) else None
  | stateE0 =>
      if strconv.isDigit c then Some (stateE0, stk) else endValue stk c
  | stateLiteral rest =>
      match rest with
      | String x EmptyString =>
          if Ascii.eqb c x then Some (stateEndValue, stk) else None
      | String x rest' =>
          if Ascii.eqb c x then Some (stateLiteral rest', stk) else None
      | EmptyString => None
      end
  | stateEndValue => endValue stk c
  | stateEndTop => endTop c
  end.

Fixpoint scan (sc : scanner) (data : bytes) : option scanner :=
  match data with
  | [] => Some sc
  | c :: data' =>
      match step sc c with
      | Some sc' => scan sc' data'
      | None => None
      end
  end.

(** [checkValid]: every byte is accepted and, at the end of the input, a
    top-level value is complete. *)
Definition checkValid (data : bytes) : bool :=
  match scan (stateBeginValue, []) data with
  | Some (stateEndTop, _) => true
  | Some sc =>
      match step sc " "%char with
      | Some (stateEndTop, _) => true
      | _ => false
      end
  | None => false
  end.

(** [json.Unmarshal(data, &v)]: an invalid input leaves [v] as it is;
    [decode] is the decoding of a valid input into the type of [v], which
    may still report an error (a value of the wrong type for a field). *)
Definition Unmarshal {A : Type} (decode : bytes -> A -> A * option error)
  (data : bytes) (v : A) : A * option error :=
  if checkValid data then decode data v else (v, Some ErrSyntaxJSON).

End json.

(** ** Package [modem]: the normalized signal model *)

Module modem.

Definition Channel := string.

(** Modelled from the spec: the package [modem] (types [Channel],
    [Downstream], [Upstream], [Signal]) is not among the sources; the
    fields are the ones of the spec's data model, under the names the
    parser and its test use. *)
Module Downstream.
Record t := mk {
  Modulation : string;
  Frequency : string;
  PowerLevel : strconv.float64;
  SNR : strconv.float64;
  Correctable : strconv.float64;
  Uncorrectable : strconv.float64 }.

(** [&modem.Downstream{}]. *)
Definition zero : t :=
  mk EmptyString EmptyString (S754_zero false) (S754_zero false) (S754_zero false)
     (S754_zero false).
End Downstream.

Module Upstream.
Record t := mk {
  Modulation : string;
  Frequency : string;
  PowerLevel : strconv.float64;
  Status : string }.

Definition zero : t := mk EmptyString EmptyString (S754_zero false) EmptyString.
End Upstream.

Module Signal.
Record t := mk {
  Downstream : gmap Channel Downstream.t;
  Upstream : gmap Channel Upstream.t }.
End Signal.

End modem.

(** ** The table parser *)

Module s33.
Import modem.

(** [for i, x := range l { s = body i x s }], counting from [i]. *)
Fixpoint rangeLoop {A St : Type} (body : nat -> A -> St -> St)
  (i : nat) (l : list A) (s : St) : St :=
  match l with
  | [] => s
  | x :: l' => rangeLoop body (S i) l' (body i x s)
  end.

(** [cols[:len(cols)-1]]. *)
Definition dropLast (cols : list string) : list string :=
  take (length cols - 1) cols.

(** [for _, row := range rows { ...; m[ch] = v }]: the loop over the rows
    of both parsers, [parseRow] its body up to the store. *)
Definition collect {V : Type} (parseRow : string -> Channel * V)
  (rows : list string) (m : gmap Channel V) : gmap Channel V :=
  fold_left (fun m row => let '(ch, v) := parseRow row in <[ch := v]> m)
    rows m.

(** The [switch i] of [parseDownstreamTable], on the channel and the
    record of the row.  The [default] case only logs. *)
Definition downstreamCol (i : nat) (col : string)
  (st : Channel * Downstream.t) : Channel * Downstream.t :=
  let '(ch, d) := st in
  let f := fst (strconv.ParseFloat col) in
  match i with
  | 0%nat => (ch, d)
  | 1%nat => (ch, d)
  | 2%nat =>
      (ch, Downstream.mk col (Downstream.Frequency d) (Downstream.PowerLevel d)
             (Downstream.SNR d) (Downstream.Correctable d)
             (Downstream.Uncorrectable d))
  | 3%nat => (col, d)
  | 4%nat =>
      (ch, Downstream.mk (Downstream.Modulation d) (col +:+ " Hz")
             (Downstream.PowerLevel d) (Downstream.SNR d)
             (Downstream.Correctable d) (Downstream.Uncorrectable d))
  | 5%nat =>
      (ch, Downstream.mk (Downstream.Modulation d) (Downstream.Frequency d)
             f (Downstream.SNR d) (Downstream.Correctable d)
             (Downstream.Uncorrectable d))
  | 6%nat =>
      (ch, Downstream.mk (Downstream.Modulation d) (Downstream.Frequency d)
             (Downstream.PowerLevel d) f (Downstream.Correctable d)
             (Downstream.Uncorrectable d))
  | 7%nat =>
      (ch, Downstream.mk (Downstream.Modulation d) (Downstream.Frequency d)
             (Downstream.PowerLevel d) (Downstream.SNR d) f
             (Downstream.Uncorrectable d))
  | 8%nat =>
      (ch, Downstream.mk (Downstream.Modulation d) (Downstream.Frequency d)
             (Downstream.PowerLevel d) (Downstream.SNR d)
             (Downstream.Correctable d) f)
  | _ => (ch, d)
  end.

(** The body of the loop over the rows: the key and the record the row
    stores in the map. *)
Definition downstreamRow (row : string) : Channel * Downstream.t :=
  let cols := strings.Split row "^" in
  rangeLoop downstreamCol 0 (dropLast cols) (EmptyString, Downstream.zero).

Definition parseDownstreamTable (t : string)
  : result (gmap Channel Downstream.t) :=
  let rows := strings.Split t "|+|" in
  if Z.of_nat (length rows) <? 0 then Err ErrNoChannels
  else
    Ok (collect downstreamRow rows ∅).

Definition upstreamCol (i : nat) (col : string)
  (st : Channel * Upstream.t) : Channel * Upstream.t :=
  let '(ch, u) := st in
  let f := fst (strconv.ParseFloat col) in
  match i with
  | 0%nat => (ch, u)
  | 1%nat =>
      (ch, Upstream.mk (Upstream.Modulation u) (Upstream.Frequency u)
             (Upstream.PowerLevel u) col)
  | 2%nat =>
      (ch, Upstream.mk col (Upstream.Frequency u) (Upstream.PowerLevel u)
             (Upstream.Status u))
  | 3%nat => (col, u)
  | 4%nat => (ch, u)
  | 5%nat =>
      (ch, Upstream.mk (Upstream.Modulation u) (col +:+ " Hz")
             (Upstream.PowerLevel u) (Upstream.Status u))
  | 6%nat =>
      (ch, Upstream.mk (Upstream.Modulation u) (Upstream.Frequency u) f
             (Upstream.Status u))
  | _ => (ch, u)
  end.

Definition upstreamRow (row : string) : Channel * Upstream.t :=
  let cols := strings.Split row "^" in
  rangeLoop upstreamCol 0 (dropLast cols) (EmptyString, Upstream.zero).

Definition parseUpstreamTable (t : string)
  : result (gmap Channel Upstream.t) :=
  let rows := strings.Split t "|+|" in
  if Z.of_nat (length rows) <=? 2 then Err (ErrExpectedMore (length rows))
  else
    Ok (collect upstreamRow rows ∅).

(** The two encoded tables of a [statusResponse]; the [Result] strings of
    the envelope are never read. *)
Record statusResponse := {
  DownstreamInfo : string;   (* HNAPsResponse.Downstream.Info *)
  UpstreamInfo : string }.   (* HNAPsResponse.Upstream.Info *)

Definition statusResponse0 : statusResponse :=
  {| DownstreamInfo := EmptyString; UpstreamInfo := EmptyString |}.

Definition parseStatus (s : statusResponse) : result Signal.t :=
  match parseDownstreamTable (DownstreamInfo s) with
  | Err e => Err e
  | Ok d =>
      match parseUpstreamTable (UpstreamInfo s) with
      | Err e => Err e
      | Ok u => Ok (Signal.mk d u)
      end
  end.

(** *** The HNAP login arithmetic *)

Definition hnapURL : string := "https://192.168.100.1/HNAP1/".
Definition hnapBase : string := "http://purenetworks.com/HNAP1".
Definition idURL : string := "https://192.168.100.1".

(** [LoginResponse] of the modem's answer to the login request. *)
Record loginResponse := {
  Challenge : string;
  Cookie : string;
  LoginResult : string;
  PublicKey : string }.

Definition loginResponse0 : loginResponse :=
  {| Challenge := EmptyString; Cookie := EmptyString;
     LoginResult := EmptyString; PublicKey := EmptyString |}.

(** [Login] of the request. *)
Record login := {
  Action : string;
  Captcha : string;
  LoginPassword : string;
  PrivateLogin : string;
  Username : string }.

Definition encrypt (key value : string) : string :=
  let encVal := hmac.New (bytesOf key) in
  let encVal := hmac.Write encVal (bytesOf value) in
  fmt.hexX (hmac.Sum encVal).

Definition encryptedPass (l : loginResponse) (privateKey : string) : string :=
  encrypt privateKey (Challenge l).

(** The timestamp of [hnapAuth], on the reading [now] of
    [time.Now().UnixNano()].  Go's [/] and [%] on [int64] truncate towards
    zero. *)
Definition hnapStamp (now : Z) : Z :=
  Z.rem (Z.quot now 1000000) 2000000000000.

Definition hnapAuth (privateKey action : string) (now : Z) : string :=
  let t := hnapStamp now in
  encrypt privateKey (fmt.itoa t +:+ (hnapBase +:+ "/" +:+ action))
  +:+ " " +:+ fmt.itoa t.

(** *** The modem value and its probe signature *)

Record s33 := { fakeData : option bytes }.

Definition Name (_ : s33) : string := "S33".

Definition New : s33 := {| fakeData := None |}.

Definition signature : bytes :=
  bytesOf ("<span id=" +:+ String dquote "thisModelNumberIs"
           +:+ String dquote "> S33 </span>").

Definition isS33 (b : bytes) : bool := bytes_Contains b signature.

(** *** The device: HTTP, clock, files *)

Record httpCookie := {
  CookieName : string;
  CookieValue : string;
  CookiePath : string;
  CookieSecure : bool }.

(** A request as [client.Do] sends it; [Jar] holds the cookies set on the
    client's jar ([[]] for a client without one). *)
Record Request := {
  Method : string;
  URL : string;
  Header : list (string * string);
  Jar : list httpCookie;
  Body : bytes }.

(** What reading a response body to its end delivers: the bytes, and the
    error that ended the reading if it was not the end of the stream. *)
Definition Response := (bytes * option error)%type.

Section Device.

(** The world outside the process, and the operations on it. *)
Variable World : Type.
(** [client.Do(req)], certificate checks off. *)
Variable Do : Request -> World -> result Response * World.
(** [time.Now().UnixNano()]. *)
Variable UnixNano : World -> Z.
(** [ioutil.ReadFile(path)]. *)
Variable ReadFile : string -> World -> result bytes.
(** The flag [-password]. *)
Variable password : string.
(** [json.Marshal] on a [login], and on the constant [status{}]. *)
Variable marshalLogin : login -> result bytes.
Variable marshalStatus : bytes.
(** The decoding [json.Unmarshal] performs on a valid input. *)
Variable decodeLogin : bytes -> loginResponse -> loginResponse * option error.
Variable decodeStatus : bytes -> statusResponse -> statusResponse * option error.

(** Calls that may fail, on the world. *)
Definition M (A : Type) : Type := World -> result A * World.

Definition ret {A} (a : A) : M A := fun w => (Ok a, w).
Definition fail {A} (e : error) : M A := fun w => (Err e, w).
Definition bind {A B} (c : M A) (k : A -> M B) : M B :=
  fun w => match c w with
           | (Ok a, w') => k a w'
           | (Err e, w') => (Err e, w')
           end.
Definition lift {A} (r : result A) : M A := fun w => (r, w).
Definition now : M Z := fun w => (Ok (UnixNano w), w).

Notation "'do' x <- c ; k" := (bind c (fun x => k))
  (at level 10, x name, c at level 100, k at level 200).

Definition privateKey (l : loginResponse) : string :=
  encrypt (PublicKey l +:+ password) (Challenge l).

Definition httpCall (req : Request) : M bytes :=
  do resp <- Do req;
  match resp with
  | (b, None) => ret b
  | (_, Some e) => fail e
  end.

Definition loginHeaders : list (string * string) :=
  [("SOAPAction", hnapBase +:+ "/Login");
   ("Content-Type", "application/json")].

Definition sessionCookies (l : loginResponse) (privateKey : string)
  : list httpCookie :=
  [ {| CookieName := "uid"; CookieValue := Cookie l;
       CookiePath := "/"; CookieSecure := true |};
    {| CookieName := "PrivateKey"; CookieValue := privateKey;
       CookiePath := "/"; CookieSecure := true |} ].

(** The two bodies of the login exchange: the request for a challenge
    and the login proper. *)
Definition loginRequest : login :=
  {| Action := "request"; Captcha := EmptyString;
     LoginPassword := EmptyString; PrivateLogin := "LoginPassword";
     Username := "admin" |}.

Definition loginAction (encryptedPass : string) : login :=
  {| Action := "login"; Captcha := EmptyString;
     LoginPassword := encryptedPass; PrivateLogin := "LoginPassword";
     Username := "admin" |}.

(** [POST hnapURL] with the login headers, [extra] added to them, on a
    client whose jar holds [jar]. *)
Definition postLogin (extra : list (string * string))
  (jar : list httpCookie) (body : bytes) : Request :=
  {| Method := "POST"; URL := hnapURL; Header := loginHeaders ++ extra;
     Jar := jar; Body := body |}.

Definition auth : M (list httpCookie) :=
  do authJSON <- lift (marshalLogin loginRequest);
  do body <- httpCall (postLogin [] [] authJSON);
  let '(parsedResponse, err) :=
    json.Unmarshal decodeLogin body loginResponse0 in
  match err with
  | Some e => fail e
  | None =>
      let privateKey := privateKey parsedResponse in
      let encryptedPass := encryptedPass parsedResponse privateKey in
      do t <- now;
      let hnap := hnapAuth privateKey "Login" t in
      let cookies := sessionCookies parsedResponse privateKey in
      do authJSON <- lift (marshalLogin (loginAction encryptedPass));
      do body <- httpCall (postLogin [("HNAP_AUTH", hnap)] cookies authJSON);
      if strings.Contains (stringOf body) "OK" then ret cookies
      else fail ErrLoginFailed
  end.

(** [for _, i := range cookies { if i.Name == "PrivateKey" { pKey = i.Value } }] *)
Definition findPrivateKey (cookies : list httpCookie) : string :=
  fold_left
    (fun pKey i =>
       if String.eqb (CookieName i) "PrivateKey" then CookieValue i else pKey)
    cookies EmptyString.

Definition getStatus : M statusResponse :=
  do cookies <- auth;
  let pKey := findPrivateKey cookies in
  do t <- now;
  let hnap := hnapAuth pKey "GetMultipleHNAPs" t in
  let req := {| Method := "POST"; URL := hnapURL;
                Header := [("SOAPAction", hnapBase +:+ "/GetMultipleHNAPs");
                           ("HNAP_AUTH", hnap);
                           ("Content-Type", "application/json")];
                Jar := cookies; Body := marshalStatus |} in
  do resp <- Do req;
  let '(response, err) :=
    json.Unmarshal decodeStatus (fst resp) statusResponse0 in
  match err with
  | Some e => fail e
  | None => ret response
  end.

(** [Status]: a fixture is decoded and parsed, the error of the decoding
    dropped; otherwise the modem is asked. *)
Definition Status (sb : s33) : M Signal.t :=
  match fakeData sb with
  | Some b =>
      let '(status, _) := json.Unmarshal decodeStatus b statusResponse0 in
      lift (parseStatus status)
  | None =>
      do rc <- getStatus;
      lift (parseStatus rc)
  end.

Definition NewFakeData (path : string) (w : World) : result s33 :=
  match ReadFile path w with
  | Err e => Err e
  | Ok b => Ok {| fakeData := Some b |}
  end.

(** [ioutil.ReadAll(io.LimitReader(rc, 1<<20))]. *)
Definition readLimited (rc : Response) : result bytes :=
  let limit := Z.to_nat (Z.shiftl 1 20) in
  match rc with
  | (b, None) => Ok (take limit b)
  | (b, Some e) => if (limit <=? length b)%nat then Ok (take limit b) else Err e
  end.

Definition getID : M Response :=
  Do {| Method := "GET"; URL := idURL; Header := []; Jar := []; Body := [] |}.

(** [probe]: [None] is the nil [modem.Modem]. *)
Definition probe (path : string) (w : World) : option s33 * World :=
  match path with
  | String _ _ =>
      match ReadFile path w with
      | Err _ => (None, w)
      | Ok b =>
          if isS33 b then
            match NewFakeData path w with
            | Err _ => (None, w)
            | Ok m => (Some m, w)
            end
          else (None, w)
      end
  | EmptyString =>
      match getID w with
      | (Err _, w') => (None, w')
      | (Ok rc, w') =>
          match readLimited rc with
          | Err _ => (None, w')
          | Ok b => if isS33 b then (Some New, w') else (None, w')
          end
      end
  end.

End Device.

End s33.

(** ** The vocabulary of the specification *)

Module spec.
Import modem.

(** The columns of a row that the parser reads: all fields but the last. *)
Definition fields (row : string) : list string :=
  s33.dropLast (strings.Split row "^").

(** The lookup table of the specification: what column [i] contributes,
    as a text, as a frequency and as a number. *)
Definition textAt (f : list string) (i : nat) : string :=
  default EmptyString (f !! i).

Definition hzAt (f : list string) (i : nat) : string :=
  match f !! i with
  | Some c => c +:+ " Hz"
  | None => EmptyString
  end.

Definition numAt (f : list string) (i : nat) : strconv.float64 :=
  match f !! i with
  | Some c => fst (strconv.ParseFloat c)
  | None => S754_zero false
  end.

Definition downstreamOf (f : list string) : Channel * Downstream.t :=
  (textAt f 3,
   Downstream.mk (textAt f 2) (hzAt f 4) (numAt f 5) (numAt f 6)
     (numAt f 7) (numAt f 8)).

Definition upstreamOf (f : list string) : Channel * Upstream.t :=
  (textAt f 3, Upstream.mk (textAt f 2) (hzAt f 5) (numAt f 6) (textAt f 1)).

(** A cell that is not a number: [ParseFloat] reports a syntax error. *)
Definition nonNumeric (c : string) : Prop :=
  snd (strconv.ParseFloat c) = Some strconv.ErrSyntax.

(** The canonical frequency text: the decimal rendering of an integer,
    then [" Hz"]. *)
Definition canonicalHz (s : string) : Prop :=
  exists n : Z, s = fmt.itoa n +:+ " Hz".

(** Reading back a decimal rendering. *)
Definition readInt (s : string) : option Z :=
  option_map Z.of_int (NilZero.int_of_string s).

(** The rows of an encoded table. *)
Definition rows (t : string) : list string := strings.Split t "|+|".

End spec.

(** ** A device to run the exchange on

    A modem that answers the request for a challenge with a fixed login
    response and every request that carries cookies with a fixed body, a
    clock that stands still, and a directory with one fixture. *)

Module example.
Import s33.

Definition World := unit.

(** A JSON string for a text that needs no escape. *)
Definition quoted (s : string) : string :=
  String dquote s +:+ String dquote EmptyString.

Definition member (k v : string) : string := quoted k +:+ ":" +:+ v.

Definition loginBody : bytes :=
  bytesOf ("{" +:+ member "LoginResponse"
             ("{" +:+ member "Challenge" (quoted "ch4ll3ng3") +:+ ","
              +:+ member "Cookie" (quoted "c00k13") +:+ ","
              +:+ member "LoginResult" (quoted "OK") +:+ ","
              +:+ member "PublicKey" (quoted "pubk3y") +:+ "}") +:+ "}").

Definition theLogin : loginResponse :=
  {| Challenge := "ch4ll3ng3"; Cookie := "c00k13"; LoginResult := "OK";
     PublicKey := "pubk3y" |}.

Definition okBody : bytes :=
  bytesOf ("{" +:+ member "LoginResponse"
             ("{" +:+ member "LoginResult" (quoted "OK") +:+ "}") +:+ "}").

Definition failedBody : bytes :=
  bytesOf ("{" +:+ member "LoginResponse"
             ("{" +:+ member "LoginResult" (quoted "FAILED") +:+ "}") +:+ "}").

(** The answer to a request with cookies is [answer]. *)
Definition Do (answer : bytes) (req : Request) (w : World)
  : result Response * World :=
  match Jar req with
  | [] => (Ok (loginBody, None), w)
  | _ => (Ok (answer, None), w)
  end.

Definition UnixNano (_ : World) : Z := 1600000000123456789.

Definition password : string := "password".

Definition marshalLogin (l : login) : result bytes :=
  Ok (bytesOf ("{" +:+ member "Login"
                 ("{" +:+ member "Action" (quoted (Action l)) +:+ ","
                  +:+ member "Captcha" (quoted (Captcha l)) +:+ ","
                  +:+ member "LoginPassword" (quoted (LoginPassword l)) +:+ ","
                  +:+ member "PrivateLogin" (quoted (PrivateLogin l)) +:+ ","
                  +:+ member "Username" (quoted (Username l)) +:+ "}")
               +:+ "}")).

Definition marshalStatus : bytes := bytesOf "{}".

(** A decoder that knows the one login response. *)
Definition decodeLogin (b : bytes) (v : loginResponse)
  : loginResponse * option error :=
  if String.eqb (stringOf b) (stringOf loginBody) then (theLogin, None)
  else (v, None).

Definition decodeStatus (_ : bytes) (v : statusResponse)
  : statusResponse * option error := (v, None).

Definition fixturePath : string := "testdata/S33.html".

Definition fixture : bytes :=
  bytesOf "<html><body>" ++ signature ++ bytesOf "</body></html>".

Definition ReadFile (path : string) (_ : World) : result bytes :=
  if String.eqb path fixturePath then Ok fixture
  else Err (ErrReadFile "no such file").

Definition two_rows_same_channel : string :=
  "1^Locked^QAM256^7^441000000^-3^43^0^0^|+|2^Locked^QAM256^7^447000000^-3^43^0^0^".

Definition bad_power_row : string := "1^Locked^QAM256^1^441000000^n/a^43^0^0^".

Definition three_rows : string :=
  bad_power_row +:+ "|+|2^Locked^QAM256^2^447000000^-3^43^0^0^"
  +:+ "|+|3^Locked^QAM256^3^453000000^-3^43^0^0^".

End example.

(** ** Vocabulary for the further properties *)

Module more.
Import s33.

(** [strings.Join(elems, sep)]. *)
Fixpoint join (elems : list string) (sep : string) : string :=
  match elems with
  | [] => EmptyString
  | x :: rest =>
      match rest with
      | [] => x
      | _ => x +:+ sep +:+ join rest sep
      end
  end.

Fixpoint allChars (p : byte -> bool) (s : string) : bool :=
  match s with
  | EmptyString => true
  | String c s' => p c && allChars p s'
  end.

(** [0-9A-F]. *)
Definition isUpperHexDigit (c : byte) : bool :=
  ((48 <=? byteZ c) && (byteZ c <=? 57))
  || ((65 <=? byteZ c) && (byteZ c <=? 70)).

(** The request [getStatus] sends once [auth] has returned [cookies]:
    the multi-query, signed under [pKey] at the clock reading [t]. *)
Definition statusRequest (marshalStatus : bytes) (cookies : list httpCookie)
  (pKey : string) (t : Z) : Request :=
  {| Method := "POST"; URL := hnapURL;
     Header := [("SOAPAction", hnapBase +:+ "/GetMultipleHNAPs");
                ("HNAP_AUTH", hnapAuth pKey "GetMultipleHNAPs" t);
                ("Content-Type", "application/json")];
     Jar := cookies; Body := marshalStatus |}.

(** The request of [getID]. *)
Definition idRequest : Request :=
  {| Method := "GET"; URL := idURL; Header := []; Jar := []; Body := [] |}.

(** [1 << 20], the bound of the probe on the identification page. *)
Definition probeLimit : nat := Z.to_nat (Z.shiftl 1 20).

(** A device that serves the fixture as its identification page and
    fails every other request. *)
Definition DoPage (req : Request) (w : example.World)
  : result Response * example.World :=
  if String.eqb (Method req) "GET" then (Ok (example.fixture, None), w)
  else (Err (ErrTransport "connection refused"), w).

(** A device that logs in and answers the status query with a page that
    is not JSON. *)
Definition DoBadStatus (req : Request) (w : example.World)
  : result Response * example.World :=
  match Jar req with
  | [] => (Ok (example.loginBody, None), w)
  | _ =>
      if String.eqb (stringOf (Body req)) (stringOf example.marshalStatus)
      then (Ok (example.fixture, Some (ErrTransport "unexpected EOF")), w)
      else (Ok (example.okBody, None), w)
  end.

Definition distinct_rows : string :=
  "1^Locked^SC-QAM^5^6400000^36500000^46.8^|+|2^Locked^SC-QAM^6^6400000^30100000^46.3^"
  +:+ "|+|3^Locked^SC-QAM^7^6400000^23700000^44.0^".

(** The same rows, the first two exchanged. *)
Definition distinct_rows_swapped : string :=
  "2^Locked^SC-QAM^6^6400000^30100000^46.3^|+|1^Locked^SC-QAM^5^6400000^36500000^46.8^"
  +:+ "|+|3^Locked^SC-QAM^7^6400000^23700000^44.0^".

Definition long_row : string :=
  "1^Locked^QAM256^1^441000000^-3^43^0^0^extra^more^".

Definition other_row : string :=
  "9^Not Locked^QAM256^1^441000000^-3^43^0^0^".

Definition short_row : string := "1^Locked^QAM256^".

Definition huge_power_row : string := "1^Locked^QAM256^1^441000000^1e999^43^0^0^".

(** The body of the first login request, as the example device encodes
    it. *)
Definition loginRequestJSON : bytes :=
  match example.marshalLogin loginRequest with
  | Ok j => j
  | Err _ => []
  end.

(** The cookies of a login on the example device. *)
Definition exampleCookies : list httpCookie :=
  sessionCookies example.theLogin
    (privateKey example.password example.theLogin).

End more.

(** * Properties *)

(** ** Strings and byte slices *)

Lemma sapp_nil_l (t : string) : EmptyString +:+ t = t.
Proof. reflexivity. Qed.

Lemma sapp_cons (a : ascii) (s t : string) :
  String a s +:+ t = String a (s +:+ t).
Proof. reflexivity. Qed.

Lemma sapp_nil_r (s : string) : s +:+ EmptyString = s.
Proof. induction s as [|a s IH]; [done|]. by rewrite sapp_cons, IH. Qed.

Lemma sapp_assoc (s t u : string) : (s +:+ t) +:+ u = s +:+ (t +:+ u).
Proof. induction s as [|a s IH]; [done|]. by rewrite !sapp_cons, IH. Qed.

Lemma sapp_length (s t : string) :
  String.length (s +:+ t) = (String.length s + String.length t)%nat.
Proof. induction s as [|a s IH]; [done|]. rewrite sapp_cons. simpl. by rewrite IH. Qed.

(** Appending the same suffix is injective. *)
Lemma sapp_inj_r (s1 s2 t : string) : s1 +:+ t = s2 +:+ t -> s1 = s2.
Proof.
  revert s2. induction s1 as [|a s1 IH]; intros [|b s2] H.
  - done.
  - apply (f_equal String.length) in H.
    rewrite sapp_nil_l, sapp_cons in H. simpl in H. rewrite sapp_length in H. lia.
  - apply (f_equal String.length) in H.
    rewrite sapp_nil_l, sapp_cons in H. simpl in H. rewrite sapp_length in H. lia.
  - rewrite !sapp_cons in H. injection H as -> H. f_equal. by apply IH.
Qed.

Lemma stringOf_app (a b : bytes) : stringOf (a ++ b) = stringOf a +:+ stringOf b.
Proof. induction a as [|c a IH]; [done|]. simpl. by rewrite sapp_cons, <- IH. Qed.

Lemma bytesOf_app (s t : string) : bytesOf (s +:+ t) = bytesOf s ++ bytesOf t.
Proof. induction s as [|c s IH]; [done|]. rewrite sapp_cons. simpl. by rewrite <- IH. Qed.

Lemma stringOf_bytesOf (s : string) : stringOf (bytesOf s) = s.
Proof. apply string_of_list_ascii_of_string. Qed.

Lemma bytesOf_stringOf (b : bytes) : bytesOf (stringOf b) = b.
Proof. apply list_ascii_of_string_of_list_ascii. Qed.

Module stringsFacts.
Import strings.

Lemma HasPrefix_spec (s p : string) :
  HasPrefix s p = true <-> exists rest, s = p +:+ rest.
Proof.
  revert s. induction p as [|a p IH]; intros s.
  - split; [intros _; by exists s | by destruct s].
  - destruct s as [|b s]; simpl.
    + split; [done | intros [rest H]; by rewrite sapp_cons in H].
    + destruct (Ascii.eqb_spec a b) as [->|Hne].
      * rewrite IH. split; intros [rest H]; exists rest.
        -- by rewrite sapp_cons, H.
        -- rewrite sapp_cons in H. by injection H.
      * split; [done|]. intros [rest H]. rewrite sapp_cons in H.
        injection H as H _. by destruct Hne.
Qed.

Lemma Contains_nil (sub : string) :
  Contains EmptyString sub = HasPrefix EmptyString sub.
Proof. simpl. apply orb_false_r. Qed.

Lemma Contains_cons (a : ascii) (s sub : string) :
  Contains (String a s) sub = HasPrefix (String a s) sub || Contains s sub.
Proof. reflexivity. Qed.

Lemma HasPrefix_nil (s : string) : HasPrefix s EmptyString = true.
Proof. by destruct s. Qed.

(** [Contains] decides the occurrence of a substring. *)
Lemma Contains_spec (s sub : string) :
  Contains s sub = true <-> exists pre post, s = pre +:+ sub +:+ post.
Proof.
  induction s as [|a s IH].
  - rewrite Contains_nil, HasPrefix_spec. split.
    + intros [rest H]. by exists EmptyString, rest.
    + intros [[|b pre] [post H]].
      * by exists post.
      * by rewrite sapp_cons in H.
  - rewrite Contains_cons, orb_true_iff, HasPrefix_spec, IH. split.
    + intros [[rest H] | (pre & post & H)].
      * by exists EmptyString, rest.
      * exists (String a pre), post. by rewrite sapp_cons, H.
    + intros ([|b pre] & post & H).
      * left. by exists post.
      * right. rewrite sapp_cons in H. injection H as _ H. by exists pre, post.
Qed.

Lemma splitFrom_cons (sep : string) (k : nat) (a : ascii) (s : string) :
  splitFrom sep k (String a s) =
  match k with
  | S k' => splitFrom sep k' s
  | O =>
      if HasPrefix (String a s) sep
      then EmptyString :: splitFrom sep (pred (String.length sep)) s
      else match splitFrom sep O s with
           | f :: fs => String a f :: fs
           | [] => [String a EmptyString]
           end
  end.
Proof. reflexivity. Qed.

Lemma splitFrom_nonempty (sep : string) (k : nat) (s : string) :
  splitFrom sep k s <> [].
Proof.
  revert k. induction s as [|a s IH]; intros k; [done|].
  rewrite splitFrom_cons.
  destruct k; [|apply IH].
  destruct (HasPrefix (String a s) sep); [done|].
  by destruct (splitFrom sep 0 s).
Qed.

(** [Split] never returns an empty slice: [cols[:len(cols)-1]] is always
    in range. *)
Lemma Split_length (s sep : string) : (1 <= length (Split s sep))%nat.
Proof.
  unfold Split. pose proof (splitFrom_nonempty sep 0 s) as H.
  destruct (splitFrom sep 0 s); [done | simpl; lia].
Qed.

(** Splitting at a single byte. *)
Lemma Split_byte_cons (c a : ascii) (s : string) :
  Split (String a s) (String c EmptyString) =
  if Ascii.eqb c a then EmptyString :: Split s (String c EmptyString)
  else match Split s (String c EmptyString) with
       | f :: fs => String a f :: fs
       | [] => [String a EmptyString]
       end.
Proof.
  unfold Split. rewrite splitFrom_cons.
  change (HasPrefix (String a s) (String c EmptyString))
    with (if Ascii.eqb c a then HasPrefix s EmptyString else false).
  rewrite HasPrefix_nil. by destruct (Ascii.eqb c a).
Qed.

Lemma Contains_byte_cons (c a : ascii) (s : string) :
  Contains (String a s) (String c EmptyString) =
  Ascii.eqb c a || Contains s (String c EmptyString).
Proof.
  rewrite Contains_cons.
  change (HasPrefix (String a s) (String c EmptyString))
    with (if Ascii.eqb c a then HasPrefix s EmptyString else false).
  rewrite HasPrefix_nil. by destruct (Ascii.eqb c a).
Qed.

(** A string without the separator is a single field. *)
Lemma Split_byte_none (c : ascii) (x : string) :
  Contains x (String c EmptyString) = false ->
  Split x (String c EmptyString) = [x].
Proof.
  induction x as [|a x IH]; [done|].
  rewrite Contains_byte_cons, orb_false_iff. intros [Ha Hx].
  rewrite Split_byte_cons, Ha, (IH Hx). done.
Qed.

(** The text after the last separator is the last field. *)
Lemma Split_byte_snoc (c : ascii) (p x : string) :
  Contains x (String c EmptyString) = false ->
  Split (p +:+ String c x) (String c EmptyString) =
  Split p (String c EmptyString) ++ [x].
Proof.
  intros Hx. induction p as [|a p IH].
  - rewrite sapp_nil_l, Split_byte_cons, Ascii.eqb_refl, (Split_byte_none _ _ Hx).
    done.
  - rewrite sapp_cons, !Split_byte_cons, IH.
    destruct (Ascii.eqb c a); [done|].
    pose proof (splitFrom_nonempty (String c EmptyString) 0 p) as Hne.
    fold (Split p (String c EmptyString)) in Hne.
    by destruct (Split p (String c EmptyString)).
Qed.

End stringsFacts.

Lemma bytes_Contains_spec (b sub : bytes) :
  bytes_Contains b sub = true <-> exists pre post, b = pre ++ sub ++ post.
Proof.
  unfold bytes_Contains. rewrite stringsFacts.Contains_spec. split.
  - intros (pre & post & H). exists (bytesOf pre), (bytesOf post).
    apply (f_equal bytesOf) in H.
    by rewrite !bytesOf_app, !bytesOf_stringOf in H.
  - intros (pre & post & ->). exists (stringOf pre), (stringOf post).
    by rewrite !stringOf_app.
Qed.

(** ** Rows *)

Module rowFacts.
Import modem s33 spec.

Lemma rangeLoop_app {A St : Type} (body : nat -> A -> St -> St)
  (i : nat) (l1 l2 : list A) (s : St) :
  rangeLoop body i (l1 ++ l2) s =
  rangeLoop body (i + length l1) l2 (rangeLoop body i l1 s).
Proof.
  revert i s. induction l1 as [|x l1 IH]; intros i s; simpl.
  - by rewrite Nat.add_0_r.
  - rewrite IH. f_equal. lia.
Qed.

(** Columns past the known ones change nothing (they are only logged). *)
Lemma downstreamCol_default (i : nat) (col : string) st :
  (9 <= i)%nat -> downstreamCol i col st = st.
Proof.
  intros Hi. destruct st as [ch d]. unfold downstreamCol.
  do 9 (destruct i as [|i]; [lia|]). done.
Qed.

Lemma upstreamCol_default (i : nat) (col : string) st :
  (7 <= i)%nat -> upstreamCol i col st = st.
Proof.
  intros Hi. destruct st as [ch u]. unfold upstreamCol.
  do 7 (destruct i as [|i]; [lia|]). done.
Qed.

Lemma rangeLoop_id {A St : Type} (body : nat -> A -> St -> St)
  (n i : nat) (l : list A) (s : St) :
  (forall j x st, (n <= j)%nat -> body j x st = st) ->
  (n <= i)%nat -> rangeLoop body i l s = s.
Proof.
  intros Hbody. revert i s. induction l as [|x l IH]; intros i s Hi; simpl.
  - done.
  - rewrite Hbody by done. apply IH. lia.
Qed.

(** The loop over the columns computes the lookup table. *)
Lemma downstreamRow_table (row : string) :
  downstreamRow row = downstreamOf (fields row).
Proof.
  unfold downstreamRow, fields. generalize (dropLast (strings.Split row "^")).
  intros f. unfold downstreamOf, textAt, hzAt, numAt.
  do 9 (destruct f as [|? f]; [reflexivity|]).
  cbn [rangeLoop]. rewrite (rangeLoop_id downstreamCol 9).
  - reflexivity.
  - intros; by apply downstreamCol_default.
  - lia.
Qed.

Lemma upstreamRow_table (row : string) :
  upstreamRow row = upstreamOf (fields row).
Proof.
  unfold upstreamRow, fields. generalize (dropLast (strings.Split row "^")).
  intros f. unfold upstreamOf, textAt, hzAt, numAt.
  do 7 (destruct f as [|? f]; [reflexivity|]).
  cbn [rangeLoop]. rewrite (rangeLoop_id upstreamCol 7).
  - reflexivity.
  - intros; by apply upstreamCol_default.
  - lia.
Qed.

Lemma dropLast_snoc (l : list string) (x : string) : dropLast (l ++ [x]) = l.
Proof.
  unfold dropLast. rewrite length_app. simpl.
  replace (length l + 1 - 1)%nat with (length l) by lia.
  by rewrite take_app_length.
Qed.

(** The fields of a row are the fields before its last separator. *)
Lemma fields_snoc (p x : string) :
  strings.Contains x "^" = false ->
  fields (p +:+ String "^" x) = strings.Split p "^".
Proof.
  intros Hx. unfold fields.
  by rewrite (stringsFacts.Split_byte_snoc "^" p x Hx), dropLast_snoc.
Qed.

Lemma fields_no_separator (x : string) :
  strings.Contains x "^" = false -> fields x = [].
Proof.
  intros Hx. unfold fields. by rewrite (stringsFacts.Split_byte_none "^" x Hx).
Qed.

End rowFacts.

(** ** The map a table builds *)

Section TableMap.
Context {V : Type} (f : string -> modem.Channel * V).

Lemma collect_snoc (rows : list string) (r : string) (m0 : gmap modem.Channel V) :
  s33.collect f (rows ++ [r]) m0
  = <[fst (f r) := snd (f r)]> (s33.collect f rows m0).
Proof. unfold s33.collect. rewrite fold_left_app. simpl. by destruct (f r). Qed.

(** A key of the map is the key of a row, and holds the record of the
    last row with that key. *)
Lemma collect_lookup (rows : list string) (k : modem.Channel) (v : V) :
  s33.collect f rows ∅ !! k = Some v <->
  exists pre r post,
    rows = pre ++ r :: post /\ f r = (k, v) /\
    forall r', r' ∈ post -> fst (f r') <> k.
Proof.
  revert v. induction rows as [|r rows IH] using rev_ind; intros v.
  - unfold s33.collect. simpl. rewrite lookup_empty. split; [done|].
    intros (pre & r & post & H & _). by destruct pre.
  - rewrite collect_snoc. destruct (decide (fst (f r) = k)) as [Hk|Hk].
    + rewrite <- Hk, lookup_insert_eq. split.
      * intros [= <-]. exists rows, r, []. split_and!; [done|by destruct (f r)|].
        intros r' Hr'. by apply elem_of_nil in Hr'.
      * intros (pre & r0 & post & H & Hf & Hpost).
        destruct post as [|p post _] using rev_ind.
        -- apply app_inj_tail in H as [_ <-]. by rewrite Hf.
        -- rewrite app_comm_cons, app_assoc in H.
           apply app_inj_tail in H as [_ <-].
           exfalso. apply (Hpost r); [|by rewrite Hk].
           apply elem_of_app. right. by apply list_elem_of_singleton.
    + rewrite lookup_insert_ne by done. rewrite IH. split.
      * intros (pre & r0 & post & -> & Hf & Hpost).
        exists pre, r0, (post ++ [r]). split_and!; [by rewrite <- app_assoc|done|].
        intros r' [Hr'|Hr']%elem_of_app; [by apply Hpost|].
        apply list_elem_of_singleton in Hr' as ->. done.
      * intros (pre & r0 & post & H & Hf & Hpost).
        destruct post as [|p post _] using rev_ind.
        -- apply app_inj_tail in H as [_ <-]. rewrite Hf in Hk. by destruct Hk.
        -- rewrite app_comm_cons, app_assoc in H.
           apply app_inj_tail in H as [-> <-].
           exists pre, r0, post. split_and!; [done..|].
           intros r' Hr'. apply Hpost, elem_of_app. by left.
Qed.

(** The keys of the map are exactly the keys of the rows. *)
Lemma collect_dom (rows : list string) (k : modem.Channel) :
  k ∈ dom (s33.collect f rows ∅) <-> exists r, r ∈ rows /\ fst (f r) = k.
Proof.
  induction rows as [|r rows IH] using rev_ind.
  - unfold s33.collect. simpl. rewrite dom_empty_L.
    split; [by intros ?%not_elem_of_empty|].
    intros (r & Hr & _). by apply elem_of_nil in Hr.
  - rewrite collect_snoc, dom_insert_L, elem_of_union, elem_of_singleton, IH.
    split.
    + intros [->|(r0 & Hr0 & Hk)].
      * exists r. split; [|done]. apply elem_of_app. right.
        by apply list_elem_of_singleton.
      * exists r0. split; [|done]. apply elem_of_app. by left.
    + intros (r0 & [Hr0|Hr0]%elem_of_app & Hk).
      * right. by exists r0.
      * apply list_elem_of_singleton in Hr0 as ->. by left.
Qed.

End TableMap.

(** ** The table parsers *)

Module tableFacts.
Import modem s33 spec.

Lemma parseDownstreamTable_eq (t : string) :
  parseDownstreamTable t = Ok (collect downstreamRow (rows t) ∅).
Proof.
  unfold parseDownstreamTable, rows.
  destruct (Z.ltb_spec (Z.of_nat (length (strings.Split t "|+|"))) 0); [lia|done].
Qed.

Lemma parseUpstreamTable_eq (t : string) :
  parseUpstreamTable t =
  if (length (rows t) <=? 2)%nat then Err (ErrExpectedMore (length (rows t)))
  else Ok (collect upstreamRow (rows t) ∅).
Proof.
  unfold parseUpstreamTable, rows.
  destruct (Z.leb_spec (Z.of_nat (length (strings.Split t "|+|"))) 2);
    destruct (Nat.leb_spec (length (strings.Split t "|+|")) 2); done || lia.
Qed.

(** The errors of [parseStatus] are the errors of the two table parsers. *)
Lemma parseStatus_error (s : statusResponse) (e : error) :
  parseStatus s = Err e -> isStructural e = true.
Proof.
  unfold parseStatus. rewrite parseDownstreamTable_eq, parseUpstreamTable_eq.
  destruct (length (rows (UpstreamInfo s)) <=? 2)%nat; [|done].
  by intros [= <-].
Qed.

Lemma readInt_itoa (n : Z) : readInt (fmt.itoa n) = Some n.
Proof.
  unfold readInt, fmt.itoa. rewrite NilZero.isi.
  - simpl. by rewrite DecimalZ.of_to.
  - destruct n; simpl; try done.
    intros [= H]. by apply DecimalPos.Unsigned.to_uint_nonnil in H.
  - destruct n; simpl; try done.
    intros [= H]. by apply DecimalPos.Unsigned.to_uint_nonnil in H.
Qed.

Lemma canonicalHz_app (c : string) :
  canonicalHz (c +:+ " Hz") <-> exists n, c = fmt.itoa n.
Proof.
  unfold canonicalHz. split; intros [n H]; exists n.
  - by apply sapp_inj_r in H.
  - by rewrite H.
Qed.

End tableFacts.

(** C1.  The downstream parser never rejects a table: its test
    [len(rows) < 0] cannot hold, so the empty table is accepted and yields
    the map that binds the empty channel to a zero record, and [parseStatus]
    returns a signal with that map.  (The upstream parser rejects it.) *)
Theorem downstream_empty_table_accepted :
  (forall t, exists m, s33.parseDownstreamTable t = Ok m) /\
  s33.parseDownstreamTable EmptyString
    = Ok {[ EmptyString := modem.Downstream.zero ]} /\
  (exists sig,
      s33.parseStatus {| s33.DownstreamInfo := EmptyString;
                         s33.UpstreamInfo := "a|+|b|+|c" |} = Ok sig /\
      modem.Signal.Downstream sig = {[ EmptyString := modem.Downstream.zero ]}) /\
  s33.parseUpstreamTable EmptyString = Err (ErrExpectedMore 1).
Proof.
  split_and!.
  - intros t. eexists. apply tableFacts.parseDownstreamTable_eq.
  - reflexivity.
  - eexists. split; reflexivity.
  - reflexivity.
Qed.

(** The upstream parser does reject a table of at most two rows. *)
Lemma upstream_minimum_rows (t : string) :
  (length (spec.rows t) <= 2)%nat ->
  s33.parseUpstreamTable t = Err (ErrExpectedMore (length (spec.rows t))).
Proof.
  intros H. rewrite tableFacts.parseUpstreamTable_eq.
  by destruct (Nat.leb_spec (length (spec.rows t)) 2); [|lia].
Qed.

(** C2, as stated, fails: a frequency column holding [441.5] gives the
    frequency ["441.5 Hz"], which is not an integer followed by [" Hz"]. *)
Lemma frequency_not_canonical :
  ~ spec.canonicalHz
      (modem.Downstream.Frequency
         (snd (s33.downstreamRow "25^Locked^OFDM PLC^25^441.5^-4^41^0^0^"))).
Proof.
  change (~ spec.canonicalHz ("441.5" +:+ " Hz")).
  rewrite tableFacts.canonicalHz_app. intros [n H].
  pose proof (tableFacts.readInt_itoa n) as Hn. rewrite <- H in Hn. done.
Qed.

(** C2, amended.  The frequency of a row is the text of its frequency
    column (index 4 downstream, 5 upstream) followed by [" Hz"], without any
    conversion: it is canonical exactly when the column holds the decimal
    rendering of an integer. *)
Theorem frequency_is_column_text (row c : string) :
  (spec.fields row !! 4%nat = Some c ->
   modem.Downstream.Frequency (snd (s33.downstreamRow row)) = c +:+ " Hz" /\
   (spec.canonicalHz (modem.Downstream.Frequency (snd (s33.downstreamRow row)))
    <-> exists n, c = fmt.itoa n)) /\
  (spec.fields row !! 5%nat = Some c ->
   modem.Upstream.Frequency (snd (s33.upstreamRow row)) = c +:+ " Hz" /\
   (spec.canonicalHz (modem.Upstream.Frequency (snd (s33.upstreamRow row)))
    <-> exists n, c = fmt.itoa n)).
Proof.
  split; intros Hc.
  - rewrite rowFacts.downstreamRow_table. simpl. unfold spec.hzAt. rewrite Hc.
    split; [done | apply tableFacts.canonicalHz_app].
  - rewrite rowFacts.upstreamRow_table. simpl. unfold spec.hzAt. rewrite Hc.
    split; [done | apply tableFacts.canonicalHz_app].
Qed.

Lemma frequency_is_column_text_witness :
  spec.fields "1^Locked^QAM256^1^441000000^-3^43^0^0^" !! 4%nat
    = Some "441000000" /\
  modem.Downstream.Frequency
    (snd (s33.downstreamRow "1^Locked^QAM256^1^441000000^-3^43^0^0^"))
    = "441000000 Hz".
Proof.
  split; [reflexivity|].
  apply (frequency_is_column_text
           "1^Locked^QAM256^1^441000000^-3^43^0^0^" "441000000").
  reflexivity.
Defined.



(** C9.  The text after the last [^] of a row is not read: the record of
    the row is the lookup table applied to the fields before it, whatever
    that text is; a row without [^] is all last field and leaves the zero
    record under the empty channel. *)
Theorem last_field_discarded (p x y : string) :
  strings.Contains x "^" = false ->
  strings.Contains y "^" = false ->
  s33.downstreamRow (p +:+ String "^" x)
    = spec.downstreamOf (strings.Split p "^") /\
  s33.upstreamRow (p +:+ String "^" x)
    = spec.upstreamOf (strings.Split p "^") /\
  s33.downstreamRow (p +:+ String "^" y)
    = s33.downstreamRow (p +:+ String "^" x) /\
  s33.upstreamRow (p +:+ String "^" y)
    = s33.upstreamRow (p +:+ String "^" x) /\
  s33.downstreamRow x = (EmptyString, modem.Downstream.zero) /\
  s33.upstreamRow x = (EmptyString, modem.Upstream.zero).
Proof.
  intros Hx Hy.
  rewrite !rowFacts.downstreamRow_table, !rowFacts.upstreamRow_table.
  rewrite !(rowFacts.fields_snoc p x Hx), !(rowFacts.fields_snoc p y Hy).
  rewrite (rowFacts.fields_no_separator x Hx). done.
Qed.

Lemma last_field_discarded_witness :
  strings.Contains EmptyString "^" = false /\
  strings.Contains "ignored" "^" = false /\
  s33.upstreamRow ("1^Locked^SC-QAM^5^6400000^36500000^46.8" +:+ String "^" "ignored")
  = s33.upstreamRow ("1^Locked^SC-QAM^5^6400000^36500000^46.8" +:+ String "^" EmptyString).
Proof.
  assert (strings.Contains EmptyString "^" = false) as Hx by reflexivity.
  assert (strings.Contains "ignored" "^" = false) as Hy by reflexivity.
  split; [exact Hx|]. split; [exact Hy|].
  exact (proj1 (proj2 (proj2 (proj2
    (last_field_discarded "1^Locked^SC-QAM^5^6400000^36500000^46.8"
       EmptyString "ignored" Hx Hy))))).
Defined.

(** C5.  A cell that is not a number never makes a parser fail, and costs
    the row only its own field: the downstream parser returns a map for every
    table, the upstream parser for every table of more than two rows, and the
    record of the row is the lookup table on its fields, with a zero where
    the cell is. *)
Theorem bad_cell_tolerated (t row c : string) (i : nat) :
  row ∈ spec.rows t ->
  spec.fields row !! i = Some c ->
  spec.nonNumeric c ->
  (exists m, s33.parseDownstreamTable t = Ok m /\
             fst (s33.downstreamRow row) ∈ dom m /\
             forall k v, m !! k = Some v ->
                         exists r, r ∈ spec.rows t /\ s33.downstreamRow r = (k, v)) /\
  ((2 < length (spec.rows t))%nat ->
   exists m, s33.parseUpstreamTable t = Ok m /\
             fst (s33.upstreamRow row) ∈ dom m /\
             forall k v, m !! k = Some v ->
                         exists r, r ∈ spec.rows t /\ s33.upstreamRow r = (k, v)) /\
  s33.downstreamRow row = spec.downstreamOf (spec.fields row) /\
  s33.upstreamRow row = spec.upstreamOf (spec.fields row) /\
  (i = 5%nat ->
   modem.Downstream.PowerLevel (snd (s33.downstreamRow row)) = S754_zero false) /\
  (i = 6%nat ->
   modem.Downstream.SNR (snd (s33.downstreamRow row)) = S754_zero false /\
   modem.Upstream.PowerLevel (snd (s33.upstreamRow row)) = S754_zero false) /\
  (i = 7%nat ->
   modem.Downstream.Correctable (snd (s33.downstreamRow row)) = S754_zero false) /\
  (i = 8%nat ->
   modem.Downstream.Uncorrectable (snd (s33.downstreamRow row)) = S754_zero false).
Proof.
  intros Hrow Hc Hbad.
  assert (spec.numAt (spec.fields row) i = S754_zero false) as Hz.
  { unfold spec.numAt. rewrite Hc. unfold spec.nonNumeric in Hbad.
    unfold strconv.ParseFloat in *.
    destruct (strconv.special c) as [[v n]|].
    - by destruct (n =? String.length c)%nat.
    - destruct (strconv.readFloat c) as [x|]; [|done].
      by destruct (strconv.value x). }
  rewrite !rowFacts.downstreamRow_table, !rowFacts.upstreamRow_table.
  split_and!; try (by intros ->); try done.
  - eexists. split; [apply tableFacts.parseDownstreamTable_eq|]. split.
    + apply collect_dom. exists row. by rewrite rowFacts.downstreamRow_table.
    + intros k v (pre & r & post & Hrows & Hr & _)%collect_lookup.
      exists r. split; [|done]. rewrite Hrows. apply elem_of_app. right.
      apply elem_of_cons. by left.
  - intros Hlen. rewrite tableFacts.parseUpstreamTable_eq.
    destruct (Nat.leb_spec (length (spec.rows t)) 2); [lia|].
    eexists. split; [done|]. split.
    + apply collect_dom. exists row. by rewrite rowFacts.upstreamRow_table.
    + intros k v (pre & r & post & Hrows & Hr & _)%collect_lookup.
      exists r. split; [|done]. rewrite Hrows. apply elem_of_app. right.
      apply elem_of_cons. by left.
Qed.

Lemma bad_cell_tolerated_witness :
  example.bad_power_row ∈ spec.rows example.three_rows /\
  spec.fields example.bad_power_row !! 5%nat = Some "n/a" /\
  spec.nonNumeric "n/a" /\
  modem.Downstream.PowerLevel (snd (s33.downstreamRow example.bad_power_row))
    = S754_zero false /\
  s33.downstreamRow example.bad_power_row
    = spec.downstreamOf (spec.fields example.bad_power_row).
Proof.
  assert (example.bad_power_row ∈ spec.rows example.three_rows) as Hrow.
  { apply (bool_decide_unpack _). vm_compute. exact I. }
  assert (spec.fields example.bad_power_row !! 5%nat = Some "n/a") as Hc
    by (vm_compute; reflexivity).
  assert (spec.nonNumeric "n/a") as Hbad by (vm_compute; reflexivity).
  pose proof (bad_cell_tolerated example.three_rows example.bad_power_row
                "n/a" 5 Hrow Hc Hbad) as (_ & _ & Hd & _ & Hz & _).
  split_and!; [exact Hrow | exact Hc | exact Hbad | exact (Hz eq_refl) | exact Hd].
Defined.

(** The scenario of the specification: the row of downstream channel 1. *)
Example scenario_channel_1 :
  s33.downstreamRow "1^Locked^QAM256^1^441000000^-3^43^0^0^"
  = ("1", modem.Downstream.mk "QAM256" "441000000 Hz"
            (S754_finite true 6755399441055744 (-51))    (* -3 *)
            (S754_finite false 6051711999279104 (-47))   (* 43 *)
            (S754_zero false) (S754_zero false)).
Proof. vm_compute. reflexivity. Qed.

(** ** The login arithmetic *)

Module cryptoFacts.

Lemma unword_length (w : Z) : length (md5.unword w) = 4%nat.
Proof. reflexivity. Qed.

(** An MD5 digest has sixteen bytes. *)
Lemma md5_Sum_length (data : bytes) : length (md5.Sum data) = md5.Size.
Proof. unfold md5.Sum. by rewrite !length_app, !unword_length. Qed.

Lemma hexX_length (b : bytes) :
  String.length (fmt.hexX b) = (2 * length b)%nat.
Proof. induction b as [|c b IH]; simpl; [done|]. rewrite IH. lia. Qed.

(** The hash object of the Go library computes the HMAC of RFC 2104. *)
Lemma hmac_Sum_spec (key text : bytes) :
  hmac.Sum (hmac.Write (hmac.New key) text) = HMAC_MD5 key text.
Proof.
  reflexivity.
Qed.

Lemma encrypt_spec (key value : string) :
  s33.encrypt key value
  = fmt.hexX (HMAC_MD5 (bytesOf key) (bytesOf value)).
Proof. unfold s33.encrypt. by rewrite hmac_Sum_spec. Qed.

Lemma encrypt_length (key value : string) :
  String.length (s33.encrypt key value) = 32%nat.
Proof.
  rewrite encrypt_spec, hexX_length.
  unfold HMAC_MD5. by rewrite md5_Sum_length.
Qed.

(** On a clock at or after the epoch, Go's truncating division and
    remainder are the floor and the modulus. *)
Lemma hnapStamp_nonneg (now : Z) :
  0 <= now -> s33.hnapStamp now = (now / 1000000) mod 2000000000000.
Proof.
  intros H. unfold s33.hnapStamp.
  rewrite Z.quot_div_nonneg by lia.
  rewrite Z.rem_mod_nonneg; [done| |lia].
  apply Z.div_pos; lia.
Qed.

End cryptoFacts.

(** RFC 2202, test case 2 for HMAC-MD5. *)
Example encrypt_rfc2202 :
  s33.encrypt "Jefe" "what do ya want for nothing?"
  = "750C783E6AB0B503EAA86E310A5DB738".
Proof. vm_compute. reflexivity. Qed.

(** C3.  The header is the upper-case hexadecimal HMAC-MD5, keyed by the
    private key, of the timestamp followed by the action URL, then a space
    and the timestamp in decimal; the timestamp is the clock in milliseconds
    modulo 2 * 10^12; the clock enters the header only through it. *)
Theorem hnapAuth_construction (k a : string) (now : Z) :
  let t := s33.hnapStamp now in
  s33.hnapAuth k a now
  = fmt.hexX (HMAC_MD5 (bytesOf k)
                (bytesOf (fmt.itoa t +:+ "http://purenetworks.com/HNAP1/" +:+ a)))
    +:+ " " +:+ fmt.itoa t /\
  (0 <= now -> t = (now / 1000000) mod 2000000000000) /\
  (forall now', s33.hnapStamp now' = t -> s33.hnapAuth k a now' = s33.hnapAuth k a now).
Proof.
  intros t. split_and!.
  - unfold s33.hnapAuth. fold t. rewrite cryptoFacts.encrypt_spec.
    reflexivity.
  - apply cryptoFacts.hnapStamp_nonneg.
  - intros now' H. unfold s33.hnapAuth. by rewrite H.
Qed.

Lemma hnapAuth_construction_witness :
  0 <= 1600000000123456789 /\
  s33.hnapStamp 1600000000123456789
  = (1600000000123456789 / 1000000) mod 2000000000000.
Proof.
  assert (0 <= 1600000000123456789) as H by lia.
  split; [exact H|].
  exact (proj1 (proj2 (hnapAuth_construction "KEY" "Login" 1600000000123456789)) H).
Defined.

(** C4.  The private key is the upper-case hexadecimal HMAC-MD5 of the
    challenge keyed by the public key followed by the password; the encrypted
    password is that of the challenge keyed by the private key. *)
Theorem login_key_derivation (password : string) (l : s33.loginResponse) :
  s33.privateKey password l
  = fmt.hexX (HMAC_MD5 (bytesOf (s33.PublicKey l +:+ password))
                (bytesOf (s33.Challenge l))) /\
  s33.encryptedPass l (s33.privateKey password l)
  = fmt.hexX (HMAC_MD5 (bytesOf (s33.privateKey password l))
                (bytesOf (s33.Challenge l))) /\
  (forall key value,
      s33.encrypt key value = fmt.hexX (HMAC_MD5 (bytesOf key) (bytesOf value))).
Proof.
  split_and!.
  - apply cryptoFacts.encrypt_spec.
  - apply cryptoFacts.encrypt_spec.
  - apply cryptoFacts.encrypt_spec.
Qed.

(** ** The device *)

Section DeviceFacts.
Import s33.

Variable World : Type.
Variable Do : Request -> World -> result Response * World.
Variable UnixNano : World -> Z.
Variable ReadFile : string -> World -> result bytes.
Variable password : string.
Variable marshalLogin : login -> result bytes.
Variable marshalStatus : bytes.
Variable decodeLogin : bytes -> loginResponse -> loginResponse * option error.
Variable decodeStatus : bytes -> statusResponse -> statusResponse * option error.

Abbreviation auth := (s33.auth World Do UnixNano password marshalLogin decodeLogin).
Abbreviation probe := (s33.probe World Do ReadFile).
Abbreviation Status :=
  (s33.Status World Do UnixNano password marshalLogin marshalStatus
     decodeLogin decodeStatus).

(** Whenever [auth] succeeds, it returns the two session cookies of a
    decoded login response, and the body of the second response contained
    the marker. *)
Lemma auth_ok_inv (w w' : World) (cs : list httpCookie) :
  auth w = (Ok cs, w') ->
  exists l body2,
    cs = sessionCookies l (privateKey password l) /\
    strings.Contains (stringOf body2) "OK" = true.
Proof.
  unfold s33.auth. unfold httpCall. unfold bind, lift, now, ret, fail.
  destruct (marshalLogin loginRequest) as [j1|]; [|done].
  destruct (Do (postLogin [] [] j1) w) as [[[body1 [e|]]|e] w1]; try done.
  destruct (json.Unmarshal decodeLogin body1 loginResponse0) as [l [e|]];
    [done|].
  destruct (marshalLogin _) as [j2|]; [|done].
  destruct (Do _ w1) as [[[body2 [e|]]|e] w2]; try done.
  destruct (strings.Contains (stringOf body2) "OK") eqn:Hok; [|done].
  intros [= <- <-]. by exists l, body2.
Qed.

(** C6.  Once the login exchange has delivered its second response,
    [auth] succeeds, with exactly the cookies [uid] and [PrivateKey] (path
    [/], secure), if and only if the body of that response contains the
    marker [OK]; with any other body it fails with [Login Failed]. *)
Theorem auth_success_iff_marker
  (w w1 w2 : World) (j1 body1 j2 body2 : bytes) (l : loginResponse) :
  let pk := privateKey password l in
  marshalLogin loginRequest = Ok j1 ->
  Do (postLogin [] [] j1) w = (Ok (body1, None), w1) ->
  json.Unmarshal decodeLogin body1 loginResponse0 = (l, None) ->
  marshalLogin (loginAction (encryptedPass l pk)) = Ok j2 ->
  Do (postLogin [("HNAP_AUTH", hnapAuth pk "Login" (UnixNano w1))]
        (sessionCookies l pk) j2) w1 = (Ok (body2, None), w2) ->
  (fst (auth w)
   = Ok [ {| CookieName := "uid"; CookieValue := Cookie l;
             CookiePath := "/"; CookieSecure := true |};
          {| CookieName := "PrivateKey"; CookieValue := pk;
             CookiePath := "/"; CookieSecure := true |} ]
   <-> strings.Contains (stringOf body2) "OK" = true) /\
  (strings.Contains (stringOf body2) "OK" = false ->
   fst (auth w) = Err ErrLoginFailed).
Proof.
  intros pk Hj1 Hdo1 Hl Hj2 Hdo2.
  assert (fst (auth w) =
          if strings.Contains (stringOf body2) "OK"
          then Ok (sessionCookies l pk) else Err ErrLoginFailed) as Hauth.
  { unfold s33.auth. unfold httpCall. unfold bind, lift, now, ret, fail.
    rewrite Hj1. cbv beta iota. rewrite Hdo1. cbv beta iota. rewrite Hl.
    cbv beta iota zeta. fold pk. rewrite Hj2. cbv beta iota.
    rewrite Hdo2. cbv beta iota.
    by destruct (strings.Contains (stringOf body2) "OK"). }
  rewrite Hauth. unfold sessionCookies.
  destruct (strings.Contains (stringOf body2) "OK"); split; done.
Qed.

(** C7.  For a fixture that can be read, [probe] returns a modem exactly
    when the content contains the signature; that modem replays the
    content and is named S33. *)
Theorem probe_fixture (path : string) (b : bytes) (w : World) :
  path <> EmptyString ->
  ReadFile path w = Ok b ->
  ((exists m, fst (probe path w) = Some m)
   <-> exists pre post, b = pre ++ signature ++ post) /\
  (forall m, fst (probe path w) = Some m ->
             fakeData m = Some b /\ Name m = "S33") /\
  (isS33 b = false -> fst (probe path w) = None).
Proof.
  intros Hpath Hread.
  assert (fst (probe path w) =
          if isS33 b then Some {| fakeData := Some b |} else None) as Hp.
  { unfold s33.probe, NewFakeData. destruct path as [|c path]; [done|].
    rewrite Hread. by destruct (isS33 b). }
  rewrite Hp. unfold isS33. rewrite <- bytes_Contains_spec.
  destruct (bytes_Contains b signature); split_and!.
  - split; [done | by eexists].
  - by intros m [= <-].
  - done.
  - split; [by intros [m ?] | done].
  - done.
  - done.
Qed.

(** C10.  A fixture that is not valid JSON is not reported as such:
    [Status] parses the zero envelope, and what it returns is the error of
    the upstream table parser on the empty string.  For any fixture, an error
    of [Status] is an error of the table parsers. *)
Theorem Status_drops_decode_error (b : bytes) (w : World) :
  json.checkValid b = false ->
  Status {| fakeData := Some b |} w = (parseStatus statusResponse0, w) /\
  Status {| fakeData := Some b |} w = (Err (ErrExpectedMore 1), w) /\
  parseUpstreamTable (UpstreamInfo statusResponse0) = Err (ErrExpectedMore 1) /\
  (forall b' w' e,
      fst (Status {| fakeData := Some b' |} w') = Err e ->
      isStructural e = true).
Proof.
  intros Hb. split_and!.
  - unfold s33.Status, json.Unmarshal, lift. simpl. by rewrite Hb.
  - unfold s33.Status, json.Unmarshal, lift. simpl. by rewrite Hb.
  - reflexivity.
  - intros b' w' e. unfold s33.Status, lift. simpl.
    destruct (json.Unmarshal decodeStatus b' statusResponse0) as [st err].
    simpl. apply tableFacts.parseStatus_error.
Qed.

End DeviceFacts.

Lemma auth_success_iff_marker_witness :
  let pk := s33.privateKey example.password example.theLogin in
  strings.Contains (stringOf example.okBody) "OK" = true /\
  fst (s33.auth example.World (example.Do example.okBody) example.UnixNano
         example.password example.marshalLogin example.decodeLogin tt)
  = Ok [ {| s33.CookieName := "uid"; s33.CookieValue := "c00k13";
            s33.CookiePath := "/"; s33.CookieSecure := true |};
         {| s33.CookieName := "PrivateKey"; s33.CookieValue := pk;
            s33.CookiePath := "/"; s33.CookieSecure := true |} ].
Proof.
  intros pk.
  assert (strings.Contains (stringOf example.okBody) "OK" = true) as Hok
    by (vm_compute; reflexivity).
  split; [exact Hok|].
  refine (proj2 (proj1 (auth_success_iff_marker example.World
            (example.Do example.okBody) example.UnixNano example.password
            example.marshalLogin example.decodeLogin tt tt tt
            _ example.loginBody _ example.okBody example.theLogin
            eq_refl _ _ eq_refl _)) Hok).
  - vm_compute. reflexivity.
  - vm_compute. reflexivity.
  - vm_compute. reflexivity.
Defined.

Lemma probe_fixture_witness :
  example.fixturePath <> EmptyString /\
  example.ReadFile example.fixturePath tt = Ok example.fixture /\
  s33.isS33 example.fixture = true /\
  forall m,
    fst (s33.probe example.World (example.Do example.okBody) example.ReadFile
           example.fixturePath tt) = Some m ->
    s33.fakeData m = Some example.fixture /\ s33.Name m = "S33".
Proof.
  assert (example.fixturePath <> EmptyString) as Hp by (vm_compute; discriminate).
  assert (example.ReadFile example.fixturePath tt = Ok example.fixture) as Hr
    by (vm_compute; reflexivity).
  split_and!; [exact Hp | exact Hr | vm_compute; reflexivity |].
  exact (proj1 (proj2 (probe_fixture example.World (example.Do example.okBody)
                         example.ReadFile example.fixturePath example.fixture tt
                         Hp Hr))).
Defined.

Lemma Status_drops_decode_error_witness :
  json.checkValid example.fixture = false /\
  s33.Status example.World (example.Do example.okBody) example.UnixNano
    example.password example.marshalLogin example.marshalStatus
    example.decodeLogin example.decodeStatus
    {| s33.fakeData := Some example.fixture |} tt
  = (Err (ErrExpectedMore 1), tt).
Proof.
  assert (json.checkValid example.fixture = false) as Hb by (vm_compute; reflexivity).
  split; [exact Hb|].
  exact (proj1 (proj2 (Status_drops_decode_error example.World
                         (example.Do example.okBody) example.UnixNano
                         example.password example.marshalLogin
                         example.marshalStatus example.decodeLogin
                         example.decodeStatus example.fixture tt Hb))).
Defined.

(** * Further properties *)

(** ** The map of a table, continued *)

Section TableMapMore.
Context {V : Type} (f : string -> modem.Channel * V).

Lemma collect_size_le (rows : list string) :
  (size (s33.collect f rows ∅) <= length rows)%nat.
Proof.
  induction rows as [|r rows IH] using rev_ind.
  - unfold s33.collect. simpl. by rewrite map_size_empty.
  - rewrite collect_snoc, length_app. simpl.
    pose proof (map_size_insert (fst (f r)) (snd (f r))
                  (s33.collect f rows ∅)) as Hs.
    destruct (s33.collect f rows ∅ !! (f r).1); simpl in Hs; lia.
Qed.

(** With pairwise distinct keys, a binding of the map is the record of
    any row with that key. *)
Lemma collect_lookup_distinct (rows : list string) (k : modem.Channel) (v : V) :
  NoDup ((fun r => fst (f r)) <$> rows) ->
  s33.collect f rows ∅ !! k = Some v <-> exists r, r ∈ rows /\ f r = (k, v).
Proof.
  intros Hnd. rewrite collect_lookup. split.
  - intros (pre & r & post & -> & Hr & _). exists r. split; [|done].
    apply elem_of_app. right. apply elem_of_cons. by left.
  - intros (r & Hin & Hr).
    apply list_elem_of_split in Hin as (pre & post & ->).
    exists pre, r, post. split_and!; [done..|].
    intros r' Hr' Hk.
    rewrite fmap_app, fmap_cons in Hnd.
    apply NoDup_app in Hnd as (_ & _ & Hnd).
    apply NoDup_cons in Hnd as [Hnotin _].
    apply Hnotin. rewrite Hr. simpl. rewrite <- Hk.
    apply list_elem_of_fmap. by exists r'.
Qed.

Lemma collect_size_distinct (rows : list string) :
  NoDup ((fun r => fst (f r)) <$> rows) ->
  size (s33.collect f rows ∅) = length rows.
Proof.
  induction rows as [|r rows IH] using rev_ind; intros Hnd.
  - unfold s33.collect. simpl. by rewrite map_size_empty.
  - rewrite fmap_app in Hnd. simpl in Hnd.
    apply NoDup_app in Hnd as (Hnd & Hdisj & _).
    rewrite collect_snoc, length_app. simpl.
    rewrite map_size_insert_None, (IH Hnd); [lia|].
    apply not_elem_of_dom. rewrite collect_dom. intros (r0 & Hr0 & Hk).
    apply (Hdisj (fst (f r))).
    + rewrite <- Hk. apply list_elem_of_fmap. by exists r0.
    + apply list_elem_of_singleton. done.
Qed.

Lemma collect_perm (rows rows' : list string) :
  rows ≡ₚ rows' ->
  NoDup ((fun r => fst (f r)) <$> rows) ->
  s33.collect f rows ∅ = s33.collect f rows' ∅.
Proof.
  intros Hp Hnd.
  assert (NoDup ((fun r => fst (f r)) <$> rows')) as Hnd'.
  { by rewrite <- Hp. }
  apply map_eq. intros k. apply option_eq. intros v.
  rewrite (collect_lookup_distinct rows k v Hnd),
    (collect_lookup_distinct rows' k v Hnd').
  split; intros (r & Hr & Hf); exists r; split; try done.
  - by rewrite <- Hp.
  - by rewrite Hp.
Qed.

End TableMapMore.

(** X1.  [parseStatus] fails exactly when the upstream table has at most two
    rows, whatever the downstream table holds; the error then reports one or
    two rows, and otherwise the signal holds the maps of the two tables. *)
Theorem parseStatus_outcome (s : s33.statusResponse) :
  let n := length (spec.rows (s33.UpstreamInfo s)) in
  ((n <= 2)%nat ->
   s33.parseStatus s = Err (ErrExpectedMore n) /\ (n = 1 \/ n = 2)%nat) /\
  ((2 < n)%nat ->
   s33.parseStatus s
   = Ok (modem.Signal.mk
           (s33.collect s33.downstreamRow (spec.rows (s33.DownstreamInfo s)) ∅)
           (s33.collect s33.upstreamRow (spec.rows (s33.UpstreamInfo s)) ∅))).
Proof.
  intros n. unfold s33.parseStatus.
  rewrite tableFacts.parseDownstreamTable_eq, tableFacts.parseUpstreamTable_eq.
  fold n. pose proof (stringsFacts.Split_length (s33.UpstreamInfo s) "|+|") as H1.
  fold (spec.rows (s33.UpstreamInfo s)) in H1. fold n in H1.
  destruct (Nat.leb_spec n 2); split; intros; try lia; try done.
  split; [done | lia].
Qed.

Lemma parseStatus_outcome_witness :
  (length (spec.rows (s33.UpstreamInfo
                        {| s33.DownstreamInfo := example.two_rows_same_channel;
                           s33.UpstreamInfo := "a|+|b" |})) <= 2)%nat /\
  s33.parseStatus {| s33.DownstreamInfo := example.two_rows_same_channel;
                     s33.UpstreamInfo := "a|+|b" |}
  = Err (ErrExpectedMore 2).
Proof.
  assert (length (spec.rows (s33.UpstreamInfo
                        {| s33.DownstreamInfo := example.two_rows_same_channel;
                           s33.UpstreamInfo := "a|+|b" |})) <= 2)%nat as H
    by (vm_compute; lia).
  split; [exact H|].
  exact (proj1 (proj1 (parseStatus_outcome
                         {| s33.DownstreamInfo := example.two_rows_same_channel;
                            s33.UpstreamInfo := "a|+|b" |}) H)).
Defined.

(** X2.  A channel that occurs in several rows keeps the record of the last
    of them: a binding of the map is the record of a row after which no row
    has the same channel. *)
Theorem later_row_overwrites (t : string) :
  (forall m, s33.parseDownstreamTable t = Ok m ->
     forall k v, m !! k = Some v <->
       exists pre r post,
         spec.rows t = pre ++ r :: post /\ s33.downstreamRow r = (k, v) /\
         forall r', r' ∈ post -> fst (s33.downstreamRow r') <> k) /\
  (forall m, s33.parseUpstreamTable t = Ok m ->
     forall k v, m !! k = Some v <->
       exists pre r post,
         spec.rows t = pre ++ r :: post /\ s33.upstreamRow r = (k, v) /\
         forall r', r' ∈ post -> fst (s33.upstreamRow r') <> k).
Proof.
  split; intros m Hm k v.
  - rewrite tableFacts.parseDownstreamTable_eq in Hm. injection Hm as <-.
    apply collect_lookup.
  - rewrite tableFacts.parseUpstreamTable_eq in Hm.
    destruct (length (spec.rows t) <=? 2)%nat; [done|]. injection Hm as <-.
    apply collect_lookup.
Qed.

Lemma later_row_overwrites_witness :
  let m := s33.collect s33.downstreamRow
             (spec.rows example.two_rows_same_channel) ∅ in
  s33.parseDownstreamTable example.two_rows_same_channel = Ok m /\
  m !! "7" = Some (snd (s33.downstreamRow
                          "2^Locked^QAM256^7^447000000^-3^43^0^0^")).
Proof.
  intros m.
  assert (s33.parseDownstreamTable example.two_rows_same_channel = Ok m) as Hm
    by (vm_compute; reflexivity).
  split; [exact Hm|].
  apply (proj1 (later_row_overwrites example.two_rows_same_channel) m Hm).
  exists ["1^Locked^QAM256^7^441000000^-3^43^0^0^"],
    "2^Locked^QAM256^7^447000000^-3^43^0^0^", [].
  split_and!.
  - vm_compute. reflexivity.
  - vm_compute. reflexivity.
  - intros r' Hr'. by apply elem_of_nil in Hr'.
Defined.

(** X3.  A table has at most as many channels as rows.  When the channel
    identifiers of the rows are pairwise distinct no row is lost: the map has
    one binding a row, each row's record under its channel. *)
Theorem distinct_channels_keep_all_rows (t : string) :
  (forall m, s33.parseDownstreamTable t = Ok m ->
     (size m <= length (spec.rows t))%nat /\
     (NoDup ((fun r => fst (s33.downstreamRow r)) <$> spec.rows t) ->
      size m = length (spec.rows t) /\
      forall r, r ∈ spec.rows t ->
                m !! fst (s33.downstreamRow r) = Some (snd (s33.downstreamRow r)))) /\
  (forall m, s33.parseUpstreamTable t = Ok m ->
     (size m <= length (spec.rows t))%nat /\
     (NoDup ((fun r => fst (s33.upstreamRow r)) <$> spec.rows t) ->
      size m = length (spec.rows t) /\
      forall r, r ∈ spec.rows t ->
                m !! fst (s33.upstreamRow r) = Some (snd (s33.upstreamRow r)))).
Proof.
  split; intros m Hm.
  - rewrite tableFacts.parseDownstreamTable_eq in Hm. injection Hm as <-.
    split; [apply collect_size_le|]. intros Hnd.
    split; [by apply collect_size_distinct|]. intros r Hr.
    apply collect_lookup_distinct; [done|]. exists r. split; [done|].
    by destruct (s33.downstreamRow r).
  - rewrite tableFacts.parseUpstreamTable_eq in Hm.
    destruct (length (spec.rows t) <=? 2)%nat; [done|]. injection Hm as <-.
    split; [apply collect_size_le|]. intros Hnd.
    split; [by apply collect_size_distinct|]. intros r Hr.
    apply collect_lookup_distinct; [done|]. exists r. split; [done|].
    by destruct (s33.upstreamRow r).
Qed.

Lemma distinct_channels_keep_all_rows_witness :
  let m := s33.collect s33.upstreamRow (spec.rows more.distinct_rows) ∅ in
  s33.parseUpstreamTable more.distinct_rows = Ok m /\
  NoDup ((fun r => fst (s33.upstreamRow r)) <$> spec.rows more.distinct_rows) /\
  size m = length (spec.rows more.distinct_rows).
Proof.
  intros m.
  assert (s33.parseUpstreamTable more.distinct_rows = Ok m) as Hm
    by (vm_compute; reflexivity).
  assert (NoDup ((fun r => fst (s33.upstreamRow r)) <$> spec.rows more.distinct_rows))
    as Hnd.
  { apply (bool_decide_unpack _). vm_compute. exact I. }
  split; [exact Hm|]. split; [exact Hnd|].
  exact (proj1 (proj2 (proj2 (distinct_channels_keep_all_rows more.distinct_rows)
                         m Hm) Hnd)).
Defined.

(** X4.  With pairwise distinct channel identifiers the order of the rows
    does not matter: two tables whose rows are a permutation of each other
    parse to the same map. *)
Theorem row_order_irrelevant (t t' : string) :
  spec.rows t ≡ₚ spec.rows t' ->
  (NoDup ((fun r => fst (s33.downstreamRow r)) <$> spec.rows t) ->
   s33.parseDownstreamTable t = s33.parseDownstreamTable t') /\
  (NoDup ((fun r => fst (s33.upstreamRow r)) <$> spec.rows t) ->
   s33.parseUpstreamTable t = s33.parseUpstreamTable t').
Proof.
  intros Hp. split; intros Hnd.
  - rewrite !tableFacts.parseDownstreamTable_eq. f_equal.
    by apply collect_perm.
  - rewrite !tableFacts.parseUpstreamTable_eq.
    rewrite (Permutation_length Hp).
    destruct (length (spec.rows t') <=? 2)%nat; [done|]. f_equal.
    by apply collect_perm.
Qed.

Lemma row_order_irrelevant_witness :
  spec.rows more.distinct_rows ≡ₚ spec.rows more.distinct_rows_swapped /\
  NoDup ((fun r => fst (s33.upstreamRow r)) <$> spec.rows more.distinct_rows) /\
  s33.parseUpstreamTable more.distinct_rows
  = s33.parseUpstreamTable more.distinct_rows_swapped.
Proof.
  assert (spec.rows more.distinct_rows ≡ₚ spec.rows more.distinct_rows_swapped)
    as Hp.
  { vm_compute. apply perm_swap. }
  assert (NoDup ((fun r => fst (s33.upstreamRow r)) <$> spec.rows more.distinct_rows))
    as Hnd.
  { apply (bool_decide_unpack _). vm_compute. exact I. }
  split; [exact Hp|]. split; [exact Hnd|].
  exact (proj2 (row_order_irrelevant more.distinct_rows
                  more.distinct_rows_swapped Hp) Hnd).
Defined.

(** ** Rows, continued *)

(** X5.  The record of a downstream row depends on its columns 2 to 8 only,
    that of an upstream row on its columns 1, 2, 3, 5 and 6: the lock status
    of a downstream row, the entry number, the width of an upstream channel
    and every column past the known ones never reach the record. *)
Theorem record_depends_on_known_columns (r r' : string) :
  ((forall i, (2 <= i <= 8)%nat -> spec.fields r !! i = spec.fields r' !! i) ->
   s33.downstreamRow r = s33.downstreamRow r') /\
  ((forall i, (1 <= i <= 6)%nat -> i <> 4%nat ->
              spec.fields r !! i = spec.fields r' !! i) ->
   s33.upstreamRow r = s33.upstreamRow r').
Proof.
  split; intros H.
  - rewrite !rowFacts.downstreamRow_table.
    unfold spec.downstreamOf, spec.textAt, spec.hzAt, spec.numAt.
    by rewrite (H 2%nat), (H 3%nat), (H 4%nat), (H 5%nat), (H 6%nat),
      (H 7%nat), (H 8%nat) by lia.
  - rewrite !rowFacts.upstreamRow_table.
    unfold spec.upstreamOf, spec.textAt, spec.hzAt, spec.numAt.
    by rewrite (H 1%nat), (H 2%nat), (H 3%nat), (H 5%nat), (H 6%nat) by lia.
Qed.

Lemma record_depends_on_known_columns_witness :
  (forall i, (2 <= i <= 8)%nat ->
             spec.fields more.long_row !! i = spec.fields more.other_row !! i) /\
  s33.downstreamRow more.long_row = s33.downstreamRow more.other_row.
Proof.
  assert (forall i, (2 <= i <= 8)%nat ->
             spec.fields more.long_row !! i = spec.fields more.other_row !! i) as H.
  { intros i Hi.
    do 2 (destruct i as [|i]; [lia|]).
    do 7 (destruct i as [|i]; [vm_compute; reflexivity|]). lia. }
  split; [exact H|].
  exact (proj1 (record_depends_on_known_columns more.long_row more.other_row) H).
Defined.

(** ** Splitting, continued *)

Module splitFacts.
Import strings stringsFacts.

Lemma join_cons (x : string) (l : list string) (sep : string) :
  l <> [] -> more.join (x :: l) sep = x +:+ sep +:+ more.join l sep.
Proof. by destruct l. Qed.

(** Stepping over what is left of a separator. *)
Lemma splitFrom_skip (sep p rest : string) :
  splitFrom sep (String.length p) (p +:+ rest) = splitFrom sep 0 rest.
Proof.
  induction p as [|a p IH]; [done|].
  rewrite sapp_cons. simpl String.length. by rewrite splitFrom_cons.
Qed.

(** Joining the fields with the separator gives the string back. *)
Lemma join_Split (sep s : string) :
  sep <> EmptyString -> more.join (Split s sep) sep = s.
Proof.
  intros Hsep. unfold Split.
  remember (String.length s) as n eqn:Hn.
  revert s Hn. induction n as [n IH] using lt_wf_ind. intros s Hn.
  destruct s as [|c s]; [done|].
  rewrite splitFrom_cons.
  destruct (HasPrefix (String c s) sep) eqn:Hpre.
  - apply HasPrefix_spec in Hpre as [rest Hrest].
    destruct sep as [|a sep']; [done|].
    rewrite sapp_cons in Hrest. injection Hrest as -> ->.
    simpl pred. rewrite splitFrom_skip.
    rewrite join_cons by apply splitFrom_nonempty.
    rewrite (IH (String.length rest)); [by rewrite sapp_nil_l, sapp_cons| |done].
    subst n. simpl. rewrite sapp_length. lia.
  - pose proof (splitFrom_nonempty sep 0 s) as Hne.
    assert (more.join (splitFrom sep 0 s) sep = s) as Hj.
    { apply (IH (String.length s)); [subst n; simpl; lia | done]. }
    destruct (splitFrom sep 0 s) as [|f fs]; [done|].
    destruct fs as [|g fs].
    + simpl in *. by rewrite Hj.
    + rewrite join_cons in Hj by done. rewrite join_cons by done.
      by rewrite sapp_cons, Hj.
Qed.

(** No field contains the separator. *)
Lemma Split_fields (sep s f : string) :
  sep <> EmptyString -> f ∈ Split s sep -> Contains f sep = false.
Proof.
  intros Hsep. unfold Split.
  remember (String.length s) as n eqn:Hn.
  revert s f Hn. induction n as [n IH] using lt_wf_ind. intros s f Hn.
  assert (Contains EmptyString sep = false) as Hnil.
  { rewrite Contains_nil. by destruct sep. }
  destruct s as [|c s].
  { intros Hf. by apply list_elem_of_singleton in Hf as ->. }
  rewrite splitFrom_cons.
  destruct (HasPrefix (String c s) sep) eqn:Hpre.
  - apply HasPrefix_spec in Hpre as [rest Hrest].
    destruct sep as [|a sep']; [done|].
    rewrite sapp_cons in Hrest. injection Hrest as -> ->.
    simpl pred. rewrite splitFrom_skip.
    intros [->|Hf]%elem_of_cons; [done|].
    apply (IH (String.length rest)) with (s := rest); [|done|done].
    subst n. simpl. rewrite sapp_length. lia.
  - pose proof (join_Split sep s Hsep) as Hj. unfold Split in Hj.
    assert (forall g, g ∈ splitFrom sep 0 s -> Contains g sep = false) as IHs.
    { intros g Hg. apply (IH (String.length s)) with (s := s);
        [subst n; simpl; lia | done | done]. }
    destruct (splitFrom sep 0 s) as [|g gs] eqn:Hs;
      [by apply splitFrom_nonempty in Hs|].
    intros [->|Hf]%elem_of_cons.
    + rewrite Contains_cons, (IHs g) by (apply elem_of_cons; by left).
      rewrite orb_false_r.
      destruct (HasPrefix (String c g) sep) eqn:Hg; [|done].
      apply HasPrefix_spec in Hg as [r' Hr'].
      assert (HasPrefix (String c s) sep = true) as Habs; [|congruence].
      apply HasPrefix_spec.
      destruct gs as [|g' gs].
      * simpl in Hj. subst g. by exists r'.
      * rewrite join_cons in Hj by done.
        exists (r' +:+ sep +:+ more.join (g' :: gs) sep).
        rewrite <- Hj, <- sapp_cons, Hr'. by rewrite sapp_assoc.
    + apply IHs. apply elem_of_cons. by right.
Qed.

End splitFacts.

(** X6.  Splitting loses nothing: the rows of a table joined with [|+|]
    are the table, the fields of a row joined with [^] are the row, and no
    field of a row contains [^]. *)
Theorem split_partitions_payload (t row : string) :
  more.join (spec.rows t) "|+|" = t /\
  (forall r, r ∈ spec.rows t -> strings.Contains r "|+|" = false) /\
  more.join (strings.Split row "^") "^" = row /\
  (forall f, f ∈ strings.Split row "^" -> strings.Contains f "^" = false).
Proof.
  split_and!.
  - by apply splitFacts.join_Split.
  - intros r. by apply splitFacts.Split_fields.
  - by apply splitFacts.join_Split.
  - intros f. by apply splitFacts.Split_fields.
Qed.

(** ** The login arithmetic, continued *)

Module headerFacts.

Lemma hexDigit_upper (c : byte) :
  more.isUpperHexDigit (fmt.hexDigit true (byteZ c / 16)) = true /\
  more.isUpperHexDigit (fmt.hexDigit true (byteZ c mod 16)) = true.
Proof.
  destruct c as [[] [] [] [] [] [] [] []]; vm_compute; by split.
Qed.

Lemma hexX_upper (b : bytes) :
  more.allChars more.isUpperHexDigit (fmt.hexX b) = true.
Proof.
  induction b as [|c b IH]; [done|].
  destruct (hexDigit_upper c) as [H1 H2].
  cbn [fmt.hexX more.allChars]. by rewrite H1, H2, IH.
Qed.

(** Strings of equal length are determined by their concatenations. *)
Lemma sapp_inj_length (s1 s2 t1 t2 : string) :
  String.length s1 = String.length s2 ->
  s1 +:+ t1 = s2 +:+ t2 -> s1 = s2 /\ t1 = t2.
Proof.
  revert s2. induction s1 as [|a s1 IH]; intros [|b s2] Hlen H; try done.
  rewrite !sapp_cons in H. injection H as -> H.
  destruct (IH s2) as [-> ->]; [by injection Hlen|done|done].
Qed.

Lemma itoa_inj (n m : Z) : fmt.itoa n = fmt.itoa m -> n = m.
Proof.
  intros H. pose proof (tableFacts.readInt_itoa n) as Hn.
  rewrite H, tableFacts.readInt_itoa in Hn. by injection Hn.
Qed.

End headerFacts.

(** X7.  Every value [encrypt] returns, and so the private key, the
    encrypted password and the [PrivateKey] cookie, is a string of 32
    upper-case hexadecimal digits. *)
Theorem encrypt_format (key value password : string) (l : s33.loginResponse) :
  String.length (s33.encrypt key value) = 32%nat /\
  more.allChars more.isUpperHexDigit (s33.encrypt key value) = true /\
  String.length (s33.privateKey password l) = 32%nat /\
  String.length (s33.encryptedPass l (s33.privateKey password l)) = 32%nat.
Proof.
  split_and!.
  - apply cryptoFacts.encrypt_length.
  - unfold s33.encrypt. apply headerFacts.hexX_upper.
  - apply cryptoFacts.encrypt_length.
  - apply cryptoFacts.encrypt_length.
Qed.

(** X8.  The timestamp of [hnapAuth] lies strictly between -2 * 10^12 and
    2 * 10^12 and has the sign of the clock: it is not negative on a clock at
    or after the epoch and not positive before it.  On a clock at or after
    the epoch it repeats after 2 * 10^12 milliseconds. *)
Theorem hnapStamp_range (now : Z) :
  - 2000000000000 < s33.hnapStamp now < 2000000000000 /\
  (0 <= now -> 0 <= s33.hnapStamp now) /\
  (now <= 0 -> s33.hnapStamp now <= 0) /\
  (0 <= now ->
   s33.hnapStamp (now + 2000000000000 * 1000000) = s33.hnapStamp now).
Proof.
  split; [|split; [|split]].
  - unfold s33.hnapStamp.
    pose proof (Z.rem_bound_abs (Z.quot now 1000000) 2000000000000) as H.
    lia.
  - intros H. rewrite cryptoFacts.hnapStamp_nonneg by done.
    apply Z.mod_pos_bound. lia.
  - intros H. unfold s33.hnapStamp. apply Z.rem_nonpos; [lia|].
    apply Z.quot_le_upper_bound; lia.
  - intros H. rewrite !cryptoFacts.hnapStamp_nonneg by lia.
    rewrite Z.div_add by lia.
    rewrite <- Zplus_mod_idemp_r, Z_mod_same_full, Z.add_0_r. done.
Qed.

Lemma hnapStamp_range_witness :
  -1500000 <= 0 /\ s33.hnapStamp (-1500000) <= 0 /\ s33.hnapStamp (-1500000) = -1.
Proof.
  assert (-1500000 <= 0) as H by lia.
  split; [exact H|]. split; [|vm_compute; reflexivity].
  exact (proj1 (proj2 (proj2 (hnapStamp_range (-1500000)))) H).
Defined.

(** X9.  The timestamp can be read off the header: two headers, whatever
    their keys and actions, are different when their timestamps are, and for
    one key and action the headers are equal exactly when the timestamps
    are. *)
Theorem header_determines_stamp (k a k' a' : string) (now now' : Z) :
  (s33.hnapAuth k a now = s33.hnapAuth k' a' now' ->
   s33.hnapStamp now = s33.hnapStamp now') /\
  (s33.hnapAuth k a now = s33.hnapAuth k a now' <->
   s33.hnapStamp now = s33.hnapStamp now').
Proof.
  assert (forall k1 a1 k2 a2,
             s33.hnapAuth k1 a1 now = s33.hnapAuth k2 a2 now' ->
             s33.hnapStamp now = s33.hnapStamp now') as Hstamp.
  { intros k1 a1 k2 a2. unfold s33.hnapAuth. intros H.
    apply headerFacts.sapp_inj_length in H as [_ H];
      [|by rewrite !cryptoFacts.encrypt_length].
    rewrite !sapp_cons, !sapp_nil_l in H. injection H as H.
    by apply headerFacts.itoa_inj. }
  split; [apply Hstamp|]. split; [apply Hstamp|].
  intros H. unfold s33.hnapAuth. by rewrite H.
Qed.

Lemma header_determines_stamp_witness :
  s33.hnapStamp 1600000000123456789 = s33.hnapStamp 1600000000123999999 /\
  s33.hnapAuth "KEY" "Login" 1600000000123456789
  = s33.hnapAuth "KEY" "Login" 1600000000123999999.
Proof.
  assert (s33.hnapStamp 1600000000123456789 = s33.hnapStamp 1600000000123999999)
    as H by (vm_compute; reflexivity).
  split; [exact H|].
  exact (proj2 (proj2 (header_determines_stamp "KEY" "Login" "KEY" "Login"
                         1600000000123456789 1600000000123999999)) H).
Defined.

(** X10.  [getStatus] looks for the private key among the cookies by name:
    it finds the value of the last cookie named [PrivateKey], the empty
    string when there is none, and on the cookies of [auth] the private key
    [auth] derived. *)
Theorem findPrivateKey_finds (cs : list s33.httpCookie) :
  ((forall c, c ∈ cs -> s33.CookieName c <> "PrivateKey") ->
   s33.findPrivateKey cs = EmptyString) /\
  (forall pre c post,
      cs = pre ++ c :: post ->
      s33.CookieName c = "PrivateKey" ->
      (forall c', c' ∈ post -> s33.CookieName c' <> "PrivateKey") ->
      s33.findPrivateKey cs = s33.CookieValue c) /\
  (forall l pk, s33.findPrivateKey (s33.sessionCookies l pk) = pk).
Proof.
  assert (forall post acc,
             (forall c', c' ∈ post -> s33.CookieName c' <> "PrivateKey") ->
             fold_left
               (fun pKey i =>
                  if String.eqb (s33.CookieName i) "PrivateKey"
                  then s33.CookieValue i else pKey) post acc = acc) as Hkeep.
  { induction post as [|c post IH]; intros acc Hpost; [done|]. simpl.
    destruct (String.eqb_spec (s33.CookieName c) "PrivateKey") as [Heq|_].
    - exfalso. apply (Hpost c); [apply elem_of_cons; by left | done].
    - apply IH. intros c' Hc'. apply Hpost. apply elem_of_cons. by right. }
  split_and!.
  - intros H. unfold s33.findPrivateKey. by apply Hkeep.
  - intros pre c post -> Hc Hpost. unfold s33.findPrivateKey.
    rewrite fold_left_app. simpl.
    rewrite Hc. simpl. by apply Hkeep.
  - reflexivity.
Qed.

Lemma findPrivateKey_finds_witness :
  (forall c, c ∈ [ {| s33.CookieName := "uid"; s33.CookieValue := "c00k13";
                      s33.CookiePath := "/"; s33.CookieSecure := true |} ] ->
             s33.CookieName c <> "PrivateKey") /\
  s33.findPrivateKey
    [ {| s33.CookieName := "uid"; s33.CookieValue := "c00k13";
         s33.CookiePath := "/"; s33.CookieSecure := true |} ] = EmptyString.
Proof.
  assert (forall c, c ∈ [ {| s33.CookieName := "uid"; s33.CookieValue := "c00k13";
                      s33.CookiePath := "/"; s33.CookieSecure := true |} ] ->
             s33.CookieName c <> "PrivateKey") as H.
  { intros c Hc. apply list_elem_of_singleton in Hc as ->. vm_compute. discriminate. }
  split; [exact H|].
  exact (proj1 (findPrivateKey_finds _) H).
Defined.

(** ** The device, continued *)

Section DeviceMore.
Import s33.

Variable World : Type.
Variable Do : Request -> World -> result Response * World.
Variable UnixNano : World -> Z.
Variable ReadFile : string -> World -> result bytes.
Variable password : string.
Variable marshalLogin : login -> result bytes.
Variable marshalStatus : bytes.
Variable decodeLogin : bytes -> loginResponse -> loginResponse * option error.
Variable decodeStatus : bytes -> statusResponse -> statusResponse * option error.

Abbreviation auth := (s33.auth World Do UnixNano password marshalLogin decodeLogin).
Abbreviation getStatus :=
  (s33.getStatus World Do UnixNano password marshalLogin marshalStatus
     decodeLogin decodeStatus).
Abbreviation Status :=
  (s33.Status World Do UnixNano password marshalLogin marshalStatus
     decodeLogin decodeStatus).
Abbreviation probe := (s33.probe World Do ReadFile).

(** X11.  A failure of the first half of the login exchange ends [auth]
    with that error and in the state the first request left: a transport
    error, an error while reading the body, and a body that is not valid
    JSON are each returned as they are, and no second request is sent. *)
Theorem auth_first_failure (w w1 : World) (j1 b : bytes) (e : error) :
  marshalLogin loginRequest = Ok j1 ->
  (Do (postLogin [] [] j1) w = (Err e, w1) -> auth w = (Err e, w1)) /\
  (Do (postLogin [] [] j1) w = (Ok (b, Some e), w1) -> auth w = (Err e, w1)) /\
  (Do (postLogin [] [] j1) w = (Ok (b, None), w1) ->
   json.checkValid b = false -> auth w = (Err ErrSyntaxJSON, w1)).
Proof.
  intros Hj1. split_and!.
  - intros Hdo. unfold s33.auth. unfold httpCall. unfold bind, lift.
    rewrite Hj1. cbv beta iota. by rewrite Hdo.
  - intros Hdo. unfold s33.auth. unfold httpCall. unfold bind, lift, fail.
    rewrite Hj1. cbv beta iota. by rewrite Hdo.
  - intros Hdo Hb. unfold s33.auth. unfold httpCall.
    unfold bind, lift, ret, fail, json.Unmarshal.
    rewrite Hj1. cbv beta iota. rewrite Hdo. cbv beta iota. by rewrite Hb.
Qed.

(** After a successful [auth], [getStatus] is the status query and the
    decoding of what it delivers. *)
Lemma getStatus_after_auth (w w1 : World) (cs : list httpCookie) :
  auth w = (Ok cs, w1) ->
  getStatus w =
  match Do (more.statusRequest marshalStatus cs (findPrivateKey cs)
              (UnixNano w1)) w1 with
  | (Err e, w2) => (Err e, w2)
  | (Ok (b, _), w2) =>
      (match json.Unmarshal decodeStatus b statusResponse0 with
       | (_, Some e) => Err e
       | (r, None) => Ok r
       end, w2)
  end.
Proof.
  intros Hauth.
  unfold s33.getStatus. unfold bind at 1. rewrite Hauth. cbv beta iota.
  unfold bind, now, ret, fail. cbv beta iota.
  change {| Method := "POST"; URL := hnapURL;
            Header := [("SOAPAction", hnapBase +:+ "/GetMultipleHNAPs");
                       ("HNAP_AUTH",
                        hnapAuth (findPrivateKey cs) "GetMultipleHNAPs"
                          (UnixNano w1));
                       ("Content-Type", "application/json")];
            Jar := cs; Body := marshalStatus |}
    with (more.statusRequest marshalStatus cs (findPrivateKey cs)
            (UnixNano w1)).
  destruct (Do _ w1) as [[[b rerr]|e] w2]; [|done]. simpl.
  by destruct (json.Unmarshal decodeStatus b statusResponse0) as [r [e|]].
Qed.

(** X12.  [getStatus] returns the error of a failed [auth] without
    sending the status query.  After a successful [auth] it sends the
    multi-query with the cookies of [auth], signed under the private key
    [auth] derived at the clock read after the login; a transport error is
    returned, an error while reading the body is dropped, and the bytes read
    are decoded, the decoding error being returned. *)
Theorem getStatus_outcome (w w1 : World) :
  (forall e, auth w = (Err e, w1) -> getStatus w = (Err e, w1)) /\
  (forall cs, auth w = (Ok cs, w1) ->
     (exists l, cs = sessionCookies l (privateKey password l) /\
                findPrivateKey cs = privateKey password l) /\
     getStatus w =
     match Do (more.statusRequest marshalStatus cs (findPrivateKey cs)
                 (UnixNano w1)) w1 with
     | (Err e, w2) => (Err e, w2)
     | (Ok (b, _), w2) =>
         (match json.Unmarshal decodeStatus b statusResponse0 with
          | (_, Some e) => Err e
          | (r, None) => Ok r
          end, w2)
     end).
Proof.
  split.
  - intros e Hauth. unfold s33.getStatus. unfold bind at 1. by rewrite Hauth.
  - intros cs Hauth. split.
    + destruct (auth_ok_inv _ _ _ _ _ _ _ _ _ Hauth) as (l & body2 & -> & _).
      by exists l.
    + by apply getStatus_after_auth.
Qed.

(** X13.  Asked of the modem, [Status] does report a status response that
    is not valid JSON, unlike for a fixture; a valid response is parsed as
    decoded. *)
Theorem Status_live_decode (w w1 w2 : World) (cs : list httpCookie)
  (b : bytes) (rerr : option error) :
  auth w = (Ok cs, w1) ->
  Do (more.statusRequest marshalStatus cs (findPrivateKey cs) (UnixNano w1)) w1
  = (Ok (b, rerr), w2) ->
  (json.checkValid b = false -> Status New w = (Err ErrSyntaxJSON, w2)) /\
  (forall r, json.checkValid b = true ->
             decodeStatus b statusResponse0 = (r, None) ->
             Status New w = (parseStatus r, w2)).
Proof.
  intros Hauth Hdo.
  pose proof (getStatus_after_auth w w1 cs Hauth) as Hget.
  rewrite Hdo in Hget. unfold json.Unmarshal in Hget.
  split.
  - intros Hb. rewrite Hb in Hget.
    unfold s33.Status. simpl. unfold bind. by rewrite Hget.
  - intros r Hb Hr. rewrite Hb, Hr in Hget.
    unfold s33.Status. simpl. unfold bind, lift. by rewrite Hget.
Qed.


(** X14.  Without a fixture, [probe] asks the modem for its
    identification page and looks at no more than its first 2^20 bytes: it
    returns a modem, the one of [New], exactly when the signature occurs
    within them; a transport error gives no modem. *)
Theorem probe_network (w w' : World) (b : bytes) :
  (forall e, Do more.idRequest w = (Err e, w') ->
             probe EmptyString w = (None, w')) /\
  (Do more.idRequest w = (Ok (b, None), w') ->
   ((exists m, probe EmptyString w = (Some m, w'))
    <-> exists pre post, take more.probeLimit b = pre ++ signature ++ post) /\
   (forall m, fst (probe EmptyString w) = Some m -> m = New) /\
   (forall pre post,
       b = pre ++ signature ++ post ->
       (length pre + length signature <= more.probeLimit)%nat ->
       probe EmptyString w = (Some New, w'))).
Proof.
  split.
  - intros e Hdo. unfold s33.probe, getID.
    change {| Method := "GET"; URL := idURL; Header := []; Jar := [];
              Body := [] |} with more.idRequest.
    by rewrite Hdo.
  - intros Hdo. unfold s33.probe, getID, readLimited, more.probeLimit.
    change {| Method := "GET"; URL := idURL; Header := []; Jar := [];
              Body := [] |} with more.idRequest.
    rewrite Hdo. cbv zeta. generalize (Z.to_nat (Z.shiftl 1 20)). intros n.
    unfold isS33. split_and!.
    + rewrite <- bytes_Contains_spec.
      destruct (bytes_Contains (take n b) signature).
      * split; [done | by eexists].
      * split; [by intros [m ?] | done].
    + destruct (bytes_Contains (take n b) signature); by intros m [= <-].
    + intros pre post -> Hlen.
      assert (bytes_Contains (take n (pre ++ signature ++ post)) signature
              = true) as ->; [|done].
      apply bytes_Contains_spec.
      exists pre, (take (n - length pre - length signature) post).
      rewrite take_app_ge by lia. f_equal.
      by rewrite take_app_ge by lia.
Qed.

(** X15.  [probe] gives no modem when the fixture cannot be read, and
    content shorter than the signature is never recognized. *)
Theorem probe_no_modem (path : string) (w : World) (e : error) (b : bytes) :
  path <> EmptyString ->
  (ReadFile path w = Err e -> probe path w = (None, w)) /\
  (ReadFile path w = Ok b -> (length b < length signature)%nat ->
   probe path w = (None, w)).
Proof.
  intros Hpath. destruct path as [|c path]; [done|]. split.
  - intros Hr. unfold s33.probe. by rewrite Hr.
  - intros Hr Hlen. unfold s33.probe. rewrite Hr.
    destruct (isS33 b) eqn:Hb; [|done].
    apply bytes_Contains_spec in Hb as (pre & post & ->).
    rewrite !length_app in Hlen. lia.
Qed.

End DeviceMore.

(** X16.  The signature test looks for the marker anywhere: content that
    contains it still does with anything before and after it. *)
Theorem isS33_embedded (pre b post : bytes) :
  s33.isS33 b = true -> s33.isS33 (pre ++ b ++ post) = true.
Proof.
  unfold s33.isS33. rewrite !bytes_Contains_spec.
  intros (p & q & ->). exists (pre ++ p), (q ++ post).
  by rewrite <- !app_assoc.
Qed.


Lemma auth_first_failure_witness :
  example.marshalLogin s33.loginRequest = Ok more.loginRequestJSON /\
  more.DoPage (s33.postLogin [] [] more.loginRequestJSON) tt
  = (Err (ErrTransport "connection refused"), tt) /\
  s33.auth example.World more.DoPage example.UnixNano example.password
    example.marshalLogin example.decodeLogin tt
  = (Err (ErrTransport "connection refused"), tt).
Proof.
  assert (example.marshalLogin s33.loginRequest = Ok more.loginRequestJSON) as Hj
    by (vm_compute; reflexivity).
  assert (more.DoPage (s33.postLogin [] [] more.loginRequestJSON) tt
          = (Err (ErrTransport "connection refused"), tt)) as Hdo
    by (vm_compute; reflexivity).
  split; [exact Hj|]. split; [exact Hdo|].
  exact (proj1 (auth_first_failure example.World more.DoPage example.UnixNano
                  example.password example.marshalLogin example.decodeLogin
                  tt tt more.loginRequestJSON []
                  (ErrTransport "connection refused") Hj) Hdo).
Defined.

Lemma getStatus_outcome_witness :
  s33.auth example.World (example.Do example.failedBody) example.UnixNano
    example.password example.marshalLogin example.decodeLogin tt
  = (Err ErrLoginFailed, tt) /\
  s33.getStatus example.World (example.Do example.failedBody) example.UnixNano
    example.password example.marshalLogin example.marshalStatus
    example.decodeLogin example.decodeStatus tt
  = (Err ErrLoginFailed, tt).
Proof.
  assert (s33.auth example.World (example.Do example.failedBody) example.UnixNano
            example.password example.marshalLogin example.decodeLogin tt
          = (Err ErrLoginFailed, tt)) as H by (vm_compute; reflexivity).
  split; [exact H|].
  exact (proj1 (getStatus_outcome example.World (example.Do example.failedBody)
                  example.UnixNano example.password example.marshalLogin
                  example.marshalStatus example.decodeLogin example.decodeStatus
                  tt tt) ErrLoginFailed H).
Defined.

Lemma Status_live_decode_witness :
  s33.auth example.World more.DoBadStatus example.UnixNano example.password
    example.marshalLogin example.decodeLogin tt
  = (Ok more.exampleCookies, tt) /\
  more.DoBadStatus
    (more.statusRequest example.marshalStatus more.exampleCookies
       (s33.findPrivateKey more.exampleCookies) (example.UnixNano tt)) tt
  = (Ok (example.fixture, Some (ErrTransport "unexpected EOF")), tt) /\
  json.checkValid example.fixture = false /\
  s33.Status example.World more.DoBadStatus example.UnixNano example.password
    example.marshalLogin example.marshalStatus example.decodeLogin
    example.decodeStatus s33.New tt
  = (Err ErrSyntaxJSON, tt).
Proof.
  assert (s33.auth example.World more.DoBadStatus example.UnixNano
            example.password example.marshalLogin example.decodeLogin tt
          = (Ok more.exampleCookies, tt)) as Hauth by (vm_compute; reflexivity).
  assert (more.DoBadStatus
            (more.statusRequest example.marshalStatus more.exampleCookies
               (s33.findPrivateKey more.exampleCookies) (example.UnixNano tt)) tt
          = (Ok (example.fixture, Some (ErrTransport "unexpected EOF")), tt))
    as Hdo by (vm_compute; reflexivity).
  assert (json.checkValid example.fixture = false) as Hb
    by (vm_compute; reflexivity).
  split; [exact Hauth|]. split; [exact Hdo|]. split; [exact Hb|].
  exact (proj1 (Status_live_decode example.World more.DoBadStatus
                  example.UnixNano example.password example.marshalLogin
                  example.marshalStatus example.decodeLogin example.decodeStatus
                  tt tt tt more.exampleCookies example.fixture
                  (Some (ErrTransport "unexpected EOF")) Hauth Hdo) Hb).
Defined.

Lemma probe_network_witness :
  more.DoPage more.idRequest tt = (Ok (example.fixture, None), tt) /\
  (length (bytesOf "<html><body>") + length s33.signature <= more.probeLimit)%nat /\
  s33.probe example.World more.DoPage example.ReadFile EmptyString tt
  = (Some s33.New, tt).
Proof.
  assert (more.DoPage more.idRequest tt = (Ok (example.fixture, None), tt)) as Hdo
    by (vm_compute; reflexivity).
  assert (length (bytesOf "<html><body>") + length s33.signature
          <= more.probeLimit)%nat as Hlen.
  { apply Nat.leb_le. vm_compute. reflexivity. }
  split; [exact Hdo|]. split; [exact Hlen|].
  exact (proj2 (proj2 (proj2 (probe_network example.World more.DoPage
                                example.ReadFile tt tt example.fixture) Hdo))
           (bytesOf "<html><body>") (bytesOf "</body></html>") eq_refl Hlen).
Defined.

Lemma probe_no_modem_witness :
  "missing.html" <> EmptyString /\
  example.ReadFile "missing.html" tt = Err (ErrReadFile "no such file") /\
  s33.probe example.World more.DoPage example.ReadFile "missing.html" tt
  = (None, tt).
Proof.
  assert ("missing.html" <> EmptyString) as Hp by discriminate.
  assert (example.ReadFile "missing.html" tt = Err (ErrReadFile "no such file"))
    as Hr by (vm_compute; reflexivity).
  split; [exact Hp|]. split; [exact Hr|].
  exact (proj1 (probe_no_modem example.World more.DoPage example.ReadFile
                  "missing.html" tt (ErrReadFile "no such file") [] Hp) Hr).
Defined.

Lemma isS33_embedded_witness :
  s33.isS33 s33.signature = true /\
  s33.isS33 (bytesOf "<html><body>" ++ s33.signature ++ bytesOf "</body></html>")
  = true.
Proof.
  assert (s33.isS33 s33.signature = true) as H by (vm_compute; reflexivity).
  split; [exact H|].
  exact (isS33_embedded (bytesOf "<html><body>") s33.signature
           (bytesOf "</body></html>") H).
Defined.

(** ** Rows: missing and out-of-range cells *)

(** X18.  A row that stops before a column leaves the field of that column
    at its zero value: without column 3 the row is stored under the empty
    channel, without the frequency column the frequency is empty, without a
    numeric column the number is zero. *)
Theorem missing_columns_default (row : string) (n : nat) :
  length (spec.fields row) = n ->
  ((n <= 2)%nat -> modem.Downstream.Modulation (snd (s33.downstreamRow row)) = EmptyString
                   /\ modem.Upstream.Modulation (snd (s33.upstreamRow row)) = EmptyString) /\
  ((n <= 3)%nat -> fst (s33.downstreamRow row) = EmptyString
                   /\ fst (s33.upstreamRow row) = EmptyString) /\
  ((n <= 4)%nat ->
   modem.Downstream.Frequency (snd (s33.downstreamRow row)) = EmptyString) /\
  ((n <= 5)%nat ->
   modem.Downstream.PowerLevel (snd (s33.downstreamRow row)) = S754_zero false
   /\ modem.Upstream.Frequency (snd (s33.upstreamRow row)) = EmptyString) /\
  ((n <= 6)%nat ->
   modem.Downstream.SNR (snd (s33.downstreamRow row)) = S754_zero false
   /\ modem.Upstream.PowerLevel (snd (s33.upstreamRow row)) = S754_zero false) /\
  ((n <= 7)%nat ->
   modem.Downstream.Correctable (snd (s33.downstreamRow row)) = S754_zero false) /\
  ((n <= 8)%nat ->
   modem.Downstream.Uncorrectable (snd (s33.downstreamRow row)) = S754_zero false).
Proof.
  intros Hn. rewrite rowFacts.downstreamRow_table, rowFacts.upstreamRow_table.
  unfold spec.downstreamOf, spec.upstreamOf, spec.textAt, spec.hzAt, spec.numAt.
  simpl.
  split_and!; intros Hle;
    repeat match goal with
      | |- context [spec.fields row !! ?i] =>
          rewrite (lookup_ge_None_2 (spec.fields row) i) by lia
      end; done.
Qed.

Lemma missing_columns_default_witness :
  length (spec.fields more.short_row) = 3%nat /\
  (3 <= 3)%nat /\
  fst (s33.downstreamRow more.short_row) = EmptyString.
Proof.
  assert (length (spec.fields more.short_row) = 3%nat) as Hn
    by (vm_compute; reflexivity).
  assert (3 <= 3)%nat as Hle by lia.
  split; [exact Hn|]. split; [exact Hle|].
  exact (proj1 (proj1 (proj2 (missing_columns_default more.short_row 3 Hn)) Hle)).
Defined.

(** X19.  The error of the number conversion is never looked at: a cell
    whose numeral is beyond the range of a float64 is stored as the infinity
    [ParseFloat] returns with its range error, not as zero and not as an
    error of the parser. *)
Theorem range_error_stores_infinity (row c : string) (i : nat) :
  spec.fields row !! i = Some c ->
  snd (strconv.ParseFloat c) = Some strconv.ErrRange ->
  exists sg,
    spec.numAt (spec.fields row) i = S754_infinity sg /\
    (i = 5%nat ->
     modem.Downstream.PowerLevel (snd (s33.downstreamRow row)) = S754_infinity sg) /\
    (i = 6%nat ->
     modem.Downstream.SNR (snd (s33.downstreamRow row)) = S754_infinity sg /\
     modem.Upstream.PowerLevel (snd (s33.upstreamRow row)) = S754_infinity sg) /\
    (i = 7%nat ->
     modem.Downstream.Correctable (snd (s33.downstreamRow row)) = S754_infinity sg) /\
    (i = 8%nat ->
     modem.Downstream.Uncorrectable (snd (s33.downstreamRow row)) = S754_infinity sg).
Proof.
  intros Hc Herr.
  assert (exists sg, spec.numAt (spec.fields row) i = S754_infinity sg) as [sg Hsg].
  { unfold spec.numAt. rewrite Hc. unfold strconv.ParseFloat in *.
    destruct (strconv.special c) as [[v n]|].
    - by destruct (n =? String.length c)%nat.
    - destruct (strconv.readFloat c) as [x|]; [|done].
      destruct (strconv.value x) as [| sg | |]; try done. by exists sg. }
  exists sg. rewrite rowFacts.downstreamRow_table, rowFacts.upstreamRow_table.
  split_and!; try done; by intros ->.
Qed.

Lemma range_error_stores_infinity_witness :
  spec.fields more.huge_power_row !! 5%nat = Some "1e999" /\
  snd (strconv.ParseFloat "1e999") = Some strconv.ErrRange /\
  exists sg,
    modem.Downstream.PowerLevel (snd (s33.downstreamRow more.huge_power_row))
    = S754_infinity sg.
Proof.
  assert (spec.fields more.huge_power_row !! 5%nat = Some "1e999") as Hc
    by (vm_compute; reflexivity).
  assert (snd (strconv.ParseFloat "1e999") = Some strconv.ErrRange) as He
    by (vm_compute; reflexivity).
  split; [exact Hc|]. split; [exact He|].
  destruct (range_error_stores_infinity more.huge_power_row "1e999" 5 Hc He)
    as (sg & _ & H5 & _).
  exists sg. exact (H5 eq_refl).
Defined.
